(** * PhantomVault IPC client: framing, envelope and session

    A shallow embedding of [scripts/test-ipc-client.py], the class
    [PhantomVaultIPCClient], and the properties of its wire protocol.

    - Python [bytes] are lists of [byte]; a Python [str] is a list of
      Unicode code points.
    - The [unsigned int] of [struct.pack('I', _)] is a [Z] in [0, 2^32).
    - A method is a computation over the client object and its
      environment (the peer behind the socket, the terminal, the clock)
      that returns a value or raises a Python exception.
    - The socket is a stream: the peer's bytes arrive in chunks, [recv]
      hands out at most the bytes of the chunk at the front, and the end
      of the stream reads as no bytes.
    - The functions [test_ipc_communication] and [main] of the script are
      computations over the environment and the lines they print. *)

From Stdlib Require Import ZArith List Bool Lia.
From Stdlib.Strings Require Import String Ascii Byte.
From Stdlib Require Import DecimalString DecimalZ.
From Stdlib Require Import PrimFloat FloatOps SpecFloat.
Import ListNotations.

Local Open Scope Z_scope.

Set Warnings "-register-all".

(** ** Python values *)

Definition bytes := list byte.
Definition pystr := list Z.

(** [len(x)] of a sequence, as the Python integer it is. *)
Definition len {A : Type} (l : list A) : Z := Z.of_nat (List.length l).

Definition ord (a : ascii) : Z := Z.of_N (N_of_ascii a).

(** A [str] literal of the source, all of whose characters are ASCII. *)
Definition str (s : string) : pystr := List.map ord (list_ascii_of_string s).

Definition Z_of_byte (b : byte) : Z := Z.of_N (Byte.to_N b).

Definition byte_of_Z (z : Z) : byte :=
  match Byte.of_N (Z.to_N (z mod 256)) with
  | Some b => b
  | None => x00
  end.

(** What [json.loads] can return, and the dict [send_message] builds. *)
Inductive pyval : Type :=
| PNone
| PBool (b : bool)
| PInt (z : Z)
| PFloat (f : float)
| PStr (s : pystr)
| PList (l : list pyval)
| PDict (d : list (pystr * pyval)).

(** ** Exceptions *)

Inductive Exn : Type :=
| OSError             (* socket failures: ConnectionResetError, BrokenPipeError, ... *)
| StructError         (* struct.error *)
| ValueError          (* JSONDecodeError, UnicodeError, int(nan) *)
| OverflowError       (* int(inf) *)
| TypeError
| KeyError
| AttributeError
| KeyboardInterrupt.  (* a BaseException that is not an Exception *)

(** [isinstance(e, Exception)]: what [except Exception] catches. *)
Definition is_Exception (e : Exn) : bool :=
  match e with
  | KeyboardInterrupt => false
  | _ => true
  end.

(** How a call ends.  [OutOfFuel] is not a Python outcome: it marks a
    loop of the model that was cut off, and is shown never to happen. *)
Inductive Outcome (A : Type) : Type :=
| Return (a : A)
| Raise (e : Exn)
| OutOfFuel.
Arguments Return {A} a.
Arguments Raise {A} e.
Arguments OutOfFuel {A}.

(** ** The [struct] module, format ['I'] *)

Inductive ByteOrder : Type := LittleEndian | BigEndian.

Module Struct.

Definition UINT_MAX : Z := 2 ^ 32 - 1.

Definition le_bytes (n : Z) : bytes :=
  [ byte_of_Z (Z.land n 255);
    byte_of_Z (Z.land (Z.shiftr n 8) 255);
    byte_of_Z (Z.land (Z.shiftr n 16) 255);
    byte_of_Z (Z.land (Z.shiftr n 24) 255) ].

Definition le_value (b0 b1 b2 b3 : byte) : Z :=
  Z.lor (Z_of_byte b0)
    (Z.lor (Z.shiftl (Z_of_byte b1) 8)
       (Z.lor (Z.shiftl (Z_of_byte b2) 16) (Z.shiftl (Z_of_byte b3) 24))).

(** [struct.pack('I', n)]: four bytes in the byte order of the host;
    [struct.error] when [n] is not an unsigned 32-bit integer. *)
Definition pack_I (bo : ByteOrder) (n : Z) : Outcome bytes :=
  if (0 <=? n) && (n <=? UINT_MAX) then
    Return (match bo with
            | LittleEndian => le_bytes n
            | BigEndian => rev (le_bytes n)
            end)
  else Raise StructError.

(** [struct.unpack('I', data)[0]]: [struct.error] unless [data] has
    exactly four bytes. *)
Definition unpack_I (bo : ByteOrder) (data : bytes) : Outcome Z :=
  match data with
  | [b0; b1; b2; b3] =>
      Return (match bo with
              | LittleEndian => le_value b0 b1 b2 b3
              | BigEndian => le_value b3 b2 b1 b0
              end)
  | _ => Raise StructError
  end.

End Struct.

(** ** Built-in operations on values *)

Fixpoint pystr_eqb (a b : pystr) : bool :=
  match a, b with
  | [], [] => true
  | x :: a', y :: b' => (x =? y) && pystr_eqb a' b'
  | _, _ => false
  end.

Fixpoint dict_get (d : list (pystr * pyval)) (key : pystr) : option pyval :=
  match d with
  | [] => None
  | (k, v) :: d' => if pystr_eqb k key then Some v else dict_get d' key
  end.

(** [v[key]] for a [str] key. *)
Definition getitem (v : pyval) (key : pystr) : Outcome pyval :=
  match v with
  | PDict d =>
      match dict_get d key with
      | Some x => Return x
      | None => Raise KeyError
      end
  | _ => Raise TypeError
  end.

(** [v[:50]].  Slicing a dict raises as well (TypeError up to Python
    3.11, KeyError from 3.12; both are Exceptions). *)
Definition slice_50 (v : pyval) : Outcome pyval :=
  match v with
  | PStr s => Return (PStr (firstn 50 s))
  | PList l => Return (PList (firstn 50 l))
  | _ => Raise TypeError
  end.

(** [len(v)]. *)
Definition py_len (v : pyval) : Outcome Z :=
  match v with
  | PStr s => Return (len s)
  | PList l => Return (len l)
  | PDict d => Return (len d)
  | _ => Raise TypeError
  end.

(** [int(x)] of a float: truncation toward zero. *)
Definition py_int (x : float) : Outcome Z :=
  match Prim2SF x with
  | S754_zero _ => Return 0
  | S754_finite s m e =>
      let v := if 0 <=? e then Z.pos m * 2 ^ e else Z.pos m / 2 ^ (- e) in
      Return (if s then - v else v)
  | S754_infinity _ => Raise OverflowError
  | S754_nan => Raise ValueError
  end.

(** [str(n)] of an integer, as an f-string formats it. *)
Definition str_of_int (n : Z) : pystr :=
  str (NilEmpty.string_of_int (Z.to_int n)).

(** ** What the interpreter and its libraries provide

    [json.dumps] and [str.encode] on the sending side, [bytes.decode] and
    [json.loads] on the receiving side; [None] stands for the exception
    the call raises ([TypeError] or [ValueError], a [UnicodeError], a
    [JSONDecodeError]: all of class [Exception]).  [byteorder] is
    [sys.byteorder], the order ['I'] packs in. *)
Record Runtime : Type := {
  byteorder : ByteOrder;
  json_dumps : pyval -> option pystr;
  str_encode_utf8 : pystr -> option bytes;
  bytes_decode_utf8 : bytes -> option pystr;
  json_loads : pystr -> option pyval
}.

(** ** The socket and the environment *)

(** What the next [recv] meets: bytes that arrive together, or a failure. *)
Inductive RecvEv : Type :=
| Arrive (chunk : bytes)
| RecvRaise (e : Exn).

(** What the next [send] meets: the kernel takes at most [n] bytes, or the
    call fails. *)
Inductive SendEv : Type :=
| Accept (n : nat)
| SendRaise (e : Exn).

(** A stream socket object.  An exhausted [inbox] is the end of the stream;
    an exhausted [sendq] takes whatever is sent. *)
Record Sock : Type := {
  connected : bool;
  inbox : list RecvEv;
  sendq : list SendEv
}.

Module Socket.

(** [socket.socket(AF_UNIX, SOCK_STREAM)] *)
Definition fresh : Sock :=
  {| connected := false; inbox := []; sendq := [] |}.

(** [s.recv(bufsize)]: at most [bufsize] bytes of the chunk at the front;
    what is not taken stays at the front; no bytes at the end of the stream. *)
Definition recv (s : Sock) (bufsize : Z) : Outcome bytes * Sock :=
  if negb (connected s) then (Raise OSError, s) else
  match inbox s with
  | [] => (Return [], s)
  | RecvRaise e :: rest =>
      (Raise e, {| connected := true; inbox := rest; sendq := sendq s |})
  | Arrive chunk :: rest =>
      let n := Z.to_nat bufsize in
      (Return (firstn n chunk),
       {| connected := true;
          inbox := match skipn n chunk with
                   | [] => rest
                   | later => Arrive later :: rest
                   end;
          sendq := sendq s |})
  end.

(** [s.send(data)]: the number of bytes taken, which may be fewer than
    [len(data)]. *)
Definition send (s : Sock) (data : bytes) : Outcome Z * Sock :=
  if negb (connected s) then (Raise OSError, s) else
  match sendq s with
  | [] => (Return (len data), s)
  | SendRaise e :: rest =>
      (Raise e, {| connected := true; inbox := inbox s; sendq := rest |})
  | Accept n :: rest =>
      (Return (len (firstn n data)),
       {| connected := true; inbox := inbox s; sendq := rest |})
  end.

End Socket.

(** Socket calls, in the order they are made. *)
Inductive Sys : Type :=
| SysConnect (path : pystr) (ok : bool)
| SysSend (data : bytes) (r : Outcome Z)
| SysRecv (bufsize : Z) (r : Outcome bytes)
| SysClose.

(** Lines printed on the terminal. *)
Inductive Line : Type :=
| MsgConnected (path : pystr)                           (* line 28 *)
| MsgConnectFailed (e : Exn)                            (* line 31 *)
| MsgDisconnected                                       (* line 39 *)
| MsgNotConnected                                       (* line 44 *)
| MsgSent (message_type payload50 : pystr) (dots : bool)  (* line 66 *)
| MsgSendFailed (e : Exn)                               (* line 72 *)
| MsgIncomplete (got expected : Z)                      (* line 97 *)
| MsgReceived (ty payload50 : pyval) (dots : bool)      (* line 102 *)
| MsgReceiveFailed (e : Exn).                           (* line 107 *)

Record World : Type := {
  stdout : list Line;
  syscalls : list Sys;
  clock : nat -> float;            (* the successive values of time.time() *)
  ticks : nat;                     (* how many have been read *)
  uid : Z;                         (* os.getuid() *)
  listening : pystr -> option Sock (* the connection a path gives, if any *)
}.

Record Client : Type := {
  socket_path : pystr;
  socket : option Sock;
  client_id : pystr
}.

Record St : Type := { self : Client; env : World }.

(** ** Computations *)

Definition M (A : Type) : Type := St -> Outcome A * St.

Definition ret {A : Type} (a : A) : M A := fun st => (Return a, st).

Definition bind {A B : Type} (m : M A) (k : A -> M B) : M B :=
  fun st =>
    match m st with
    | (Return a, st') => k a st'
    | (Raise e, st') => (Raise e, st')
    | (OutOfFuel, st') => (OutOfFuel, st')
    end.

Declare Scope py_scope.
Delimit Scope py_scope with py.
Notation "x <- m ;; k" := (bind m (fun x => k))
  (at level 61, m at next level, right associativity) : py_scope.
Notation "m ;; k" := (bind m (fun _ => k))
  (at level 61, right associativity) : py_scope.
Local Open Scope py_scope.

Definition lift {A : Type} (o : Outcome A) : M A := fun st => (o, st).

Definition of_option {A : Type} (e : Exn) (o : option A) : M A :=
  match o with
  | Some a => ret a
  | None => lift (Raise e)
  end.

(** [try: m  except Exception as e: h e] *)
Definition try_except {A : Type} (m : M A) (h : Exn -> M A) : M A :=
  fun st =>
    match m st with
    | (Raise e, st') => if is_Exception e then h e st' else (Raise e, st')
    | r => r
    end.

Definition set_socket (c : Client) (s : option Sock) : Client :=
  {| socket_path := socket_path c; socket := s; client_id := client_id c |}.

Definition log_line (w : World) (l : Line) : World :=
  {| stdout := stdout w ++ [l]; syscalls := syscalls w; clock := clock w;
     ticks := ticks w; uid := uid w; listening := listening w |}.

Definition log_sys (w : World) (e : Sys) : World :=
  {| stdout := stdout w; syscalls := syscalls w ++ [e]; clock := clock w;
     ticks := ticks w; uid := uid w; listening := listening w |}.

Definition tick (w : World) : World :=
  {| stdout := stdout w; syscalls := syscalls w; clock := clock w;
     ticks := S (ticks w); uid := uid w; listening := listening w |}.

Definition print (l : Line) : M unit :=
  fun st => (Return tt, {| self := self st; env := log_line (env st) l |}).

(** [time.time()] *)
Definition time_time : M float :=
  fun st =>
    (Return (clock (env st) (ticks (env st))),
     {| self := self st; env := tick (env st) |}).

(** [self.socket] *)
Definition self_socket : M (option Sock) :=
  fun st => (Return (socket (self st)), st).

(** [self.socket_path] *)
Definition self_socket_path : M pystr :=
  fun st => (Return (socket_path (self st)), st).

(** [self.client_id] *)
Definition self_client_id : M pystr :=
  fun st => (Return (client_id (self st)), st).

(** [self.socket = s] *)
Definition assign_socket (s : option Sock) : M unit :=
  fun st => (Return tt, {| self := set_socket (self st) s; env := env st |}).

(** [self.socket.connect(path)] *)
Definition self_socket_connect (path : pystr) : M unit :=
  fun st =>
    match socket (self st) with
    | None => (Raise AttributeError, st)
    | Some _ =>
        match listening (env st) path with
        | Some s =>
            (Return tt, {| self := set_socket (self st) (Some s);
                           env := log_sys (env st) (SysConnect path true) |})
        | None =>
            (Raise OSError, {| self := self st;
                               env := log_sys (env st) (SysConnect path false) |})
        end
    end.

(** [self.socket.send(data)] *)
Definition self_socket_send (data : bytes) : M Z :=
  fun st =>
    match socket (self st) with
    | None => (Raise AttributeError, st)
    | Some s =>
        let (r, s') := Socket.send s data in
        (r, {| self := set_socket (self st) (Some s');
               env := log_sys (env st) (SysSend data r) |})
    end.

(** [self.socket.recv(bufsize)] *)
Definition self_socket_recv (bufsize : Z) : M bytes :=
  fun st =>
    match socket (self st) with
    | None => (Raise AttributeError, st)
    | Some s =>
        let (r, s') := Socket.recv s bufsize in
        (r, {| self := set_socket (self st) (Some s');
               env := log_sys (env st) (SysRecv bufsize r) |})
    end.

(** [self.socket.close()] *)
Definition self_socket_close : M unit :=
  fun st =>
    match socket (self st) with
    | None => (Raise AttributeError, st)
    | Some s =>
        (Return tt,
         {| self := set_socket (self st)
                      (Some {| connected := false; inbox := inbox s; sendq := sendq s |});
            env := log_sys (env st) SysClose |})
    end.

(** ** class PhantomVaultIPCClient *)

(** What lines 82-98 of [receive_message] make of the stream. *)
Inductive Framed : Type :=
| Frame (message_data : bytes)
| HeaderTruncated (length_data : bytes)
| IncompleteMessage (message_data : bytes) (message_length : Z).

Section PhantomVaultIPCClient.

Variable rt : Runtime.

(** [__init__(self, socket_path=None)] *)
Definition init (socket_path : option pystr) (w : World)
  : Outcome Client * World :=
  let socket_path :=
    match socket_path with
    | None => str "/tmp/phantom-vault-" ++ str_of_int (uid w) ++ str ".sock"
    | Some p => p
    end in
  match py_int (clock w (ticks w)) with
  | Return now =>
      (Return {| socket_path := socket_path;
                 socket := None;
                 client_id := str "test_client_" ++ str_of_int now |},
       tick w)
  | Raise e => (Raise e, tick w)
  | OutOfFuel => (OutOfFuel, tick w)
  end.

(** [connect(self)] *)
Definition connect : M bool :=
  try_except
    (assign_socket (Some Socket.fresh) ;;
     path <- self_socket_path ;;
     self_socket_connect path ;;
     print (MsgConnected path) ;;
     ret true)
    (fun e =>
       print (MsgConnectFailed e) ;;
       ret false).

(** [disconnect(self)] *)
Definition disconnect : M unit :=
  s <- self_socket ;;
  match s with
  | Some _ =>
      self_socket_close ;;
      assign_socket None ;;
      print MsgDisconnected
  | None => ret tt
  end.

(** The [while] loop of lines 90-94.  Every turn that does not leave the
    loop adds at least one byte, so [message_length] turns are enough. *)
Fixpoint recv_loop (fuel : nat) (message_length : Z) (message_data : bytes)
  : M bytes :=
  if len message_data <? message_length then
    match fuel with
    | O => lift OutOfFuel
    | S fuel' =>
        chunk <- self_socket_recv (message_length - len message_data) ;;
        match chunk with
        | [] => ret message_data
        | _ :: _ => recv_loop fuel' message_length (message_data ++ chunk)
        end
    end
  else ret message_data.

(** Lines 82-96 of [receive_message]: the length, then the data. *)
Definition read_frame : M Framed :=
  length_data <- self_socket_recv 4 ;;
  if negb (len length_data =? 4) then ret (HeaderTruncated length_data)
  else
    message_length <- lift (Struct.unpack_I (byteorder rt) length_data) ;;
    message_data <- recv_loop (Z.to_nat message_length) message_length [] ;;
    if negb (len message_data =? message_length)
    then ret (IncompleteMessage message_data message_length)
    else ret (Frame message_data).

(** [receive_message(self)] *)
Definition receive_message : M (option pyval) :=
  s <- self_socket ;;
  match s with
  | None => ret None
  | Some _ =>
      try_except
        (framed <- read_frame ;;
         match framed with
         | HeaderTruncated _ => ret None
         | IncompleteMessage message_data message_length =>
             print (MsgIncomplete (len message_data) message_length) ;;
             ret None
         | Frame message_data =>
             text <- of_option ValueError (bytes_decode_utf8 rt message_data) ;;
             message <- of_option ValueError (json_loads rt text) ;;
             ty <- lift (getitem message (str "type")) ;;
             payload <- lift (getitem message (str "payload")) ;;
             payload50 <- lift (slice_50 payload) ;;
             payload' <- lift (getitem message (str "payload")) ;;
             n <- lift (py_len payload') ;;
             print (MsgReceived ty payload50 (50 <? n)) ;;
             ret (Some message)
         end)
        (fun e =>
           print (MsgReceiveFailed e) ;;
           ret None)
  end.

(** Line 50: [request_id], or when it is empty [req_] followed by
    [int(time.time() * 1000)]. *)
Definition request_id_or_default (request_id : pystr) : M pystr :=
  match request_id with
  | _ :: _ => ret request_id
  | [] =>
      now <- time_time ;;
      ms <- lift (py_int (PrimFloat.mul now 1000%float)) ;;
      ret (str "req_" ++ str_of_int ms)
  end.

(** The dict of lines 47-52. *)
Definition envelope (message_type payload request_id client_id : pystr)
  : pyval :=
  PDict [ (str "type", PStr message_type);
          (str "payload", PStr payload);
          (str "request_id", PStr request_id);
          (str "client_id", PStr client_id) ].

(** [send_message(self, message_type, payload, request_id)]; the source
    gives [payload] and [request_id] the empty string by default. *)
Definition send_message (message_type payload request_id : pystr)
  : M (option pyval) :=
  s <- self_socket ;;
  match s with
  | None =>
      print MsgNotConnected ;;
      ret None
  | Some _ =>
      request_id <- request_id_or_default request_id ;;
      client_id <- self_client_id ;;
      let message := envelope message_type payload request_id client_id in
      try_except
        (serialized <- of_option TypeError (json_dumps rt message) ;;
         message_bytes <- of_option ValueError (str_encode_utf8 rt serialized) ;;
         length <- lift (Struct.pack_I (byteorder rt) (len message_bytes)) ;;
         self_socket_send length ;;
         self_socket_send message_bytes ;;
         print (MsgSent message_type (firstn 50 payload) (50 <? len payload)) ;;
         receive_message)
        (fun e =>
           print (MsgSendFailed e) ;;
           ret None)
  end.

End PhantomVaultIPCClient.

(** ** A runtime to evaluate with

    [json.dumps] as CPython does it for the envelope (a dict of strings,
    [ensure_ascii=True], a comma and a space between items, a colon and a
    space after a key), UTF-8 encoding of a
    [str], and a receiving side that decodes ASCII text and parses the
    texts of a given table.  The theorems hold for every [Runtime]; this
    one runs the examples. *)
Module CPython.

Definition hex_digit (n : Z) : Z :=
  if n <? 10 then 48 + n else 87 + n.

(** [\uXXXX] *)
Definition u_escape (n : Z) : pystr :=
  [ 92; 117;
    hex_digit (Z.land (Z.shiftr n 12) 15);
    hex_digit (Z.land (Z.shiftr n 8) 15);
    hex_digit (Z.land (Z.shiftr n 4) 15);
    hex_digit (Z.land n 15) ].

(** One character of [json.encoder.py_encode_basestring_ascii]. *)
Definition escape_char (c : Z) : pystr :=
  if c =? 34 then [92; 34]
  else if c =? 92 then [92; 92]
  else if c =? 10 then [92; 110]
  else if c =? 13 then [92; 114]
  else if c =? 9 then [92; 116]
  else if c =? 8 then [92; 98]
  else if c =? 12 then [92; 102]
  else if (32 <=? c) && (c <=? 126) then [c]
  else if c <? 65536 then u_escape c
  else
    let n := c - 65536 in
    u_escape (Z.lor 55296 (Z.land (Z.shiftr n 10) 1023))
      ++ u_escape (Z.lor 56320 (Z.land n 1023)).

Definition dumps_str (s : pystr) : pystr :=
  [34] ++ flat_map escape_char s ++ [34].

Fixpoint dumps_items (d : list (pystr * pyval)) : option (list pystr) :=
  match d with
  | [] => Some []
  | (k, PStr v) :: d' =>
      match dumps_items d' with
      | Some items => Some ((dumps_str k ++ str ": " ++ dumps_str v) :: items)
      | None => None
      end
  | _ => None
  end.

Fixpoint join (sep : pystr) (items : list pystr) : pystr :=
  match items with
  | [] => []
  | [x] => x
  | x :: rest => x ++ sep ++ join sep rest
  end.

Definition dumps (v : pyval) : option pystr :=
  match v with
  | PDict d =>
      match dumps_items d with
      | Some items => Some (str "{" ++ join (str ", ") items ++ str "}")
      | None => None
      end
  | _ => None
  end.

Definition utf8_char (c : Z) : option bytes :=
  if c <? 0 then None
  else if c <? 128 then Some [byte_of_Z c]
  else if c <? 2048 then
    Some [ byte_of_Z (Z.lor 192 (Z.shiftr c 6));
           byte_of_Z (Z.lor 128 (Z.land c 63)) ]
  else if (55296 <=? c) && (c <=? 57343) then None
  else if c <? 65536 then
    Some [ byte_of_Z (Z.lor 224 (Z.shiftr c 12));
           byte_of_Z (Z.lor 128 (Z.land (Z.shiftr c 6) 63));
           byte_of_Z (Z.lor 128 (Z.land c 63)) ]
  else if c <? 1114112 then
    Some [ byte_of_Z (Z.lor 240 (Z.shiftr c 18));
           byte_of_Z (Z.lor 128 (Z.land (Z.shiftr c 12) 63));
           byte_of_Z (Z.lor 128 (Z.land (Z.shiftr c 6) 63));
           byte_of_Z (Z.lor 128 (Z.land c 63)) ]
  else None.

Fixpoint encode_utf8 (s : pystr) : option bytes :=
  match s with
  | [] => Some []
  | c :: s' =>
      match utf8_char c, encode_utf8 s' with
      | Some b, Some bs => Some (b ++ bs)
      | _, _ => None
      end
  end.

Fixpoint decode_ascii (data : bytes) : option pystr :=
  match data with
  | [] => Some []
  | b :: data' =>
      if Z_of_byte b <? 128 then
        match decode_ascii data' with
        | Some s => Some (Z_of_byte b :: s)
        | None => None
        end
      else None
  end.

Fixpoint loads_table (table : list (pystr * pyval)) (text : pystr)
  : option pyval :=
  match table with
  | [] => None
  | (t, v) :: table' =>
      if pystr_eqb t text then Some v else loads_table table' text
  end.

Definition runtime (bo : ByteOrder) (table : list (pystr * pyval)) : Runtime :=
  {| byteorder := bo;
     json_dumps := dumps;
     str_encode_utf8 := encode_utf8;
     bytes_decode_utf8 := decode_ascii;
     json_loads := loads_table table |}.

End CPython.

(** * Notions the properties are stated with *)

(** The stream that delivers the given chunks, one after the other. *)
Definition deliver (chunks : list bytes) : list RecvEv := List.map Arrive chunks.

(** A socket whose failures are errors ([Exception]s), not interrupts. *)
Definition recv_ok (ev : RecvEv) : bool :=
  match ev with
  | RecvRaise e => is_Exception e
  | Arrive _ => true
  end.

Definition send_ok (ev : SendEv) : bool :=
  match ev with
  | SendRaise e => is_Exception e
  | Accept _ => true
  end.

Definition sock_sane (s : Sock) : bool :=
  forallb recv_ok (inbox s) && forallb send_ok (sendq s).

Definition sane (st : St) : Prop :=
  match socket (self st) with
  | Some s => sock_sane s = true
  | None => True
  end.

(** A call that ends as Python can end it, and if by an exception, then by
    one that [except Exception] catches. *)
Definition outcome_ok {A : Type} (o : Outcome A) : Prop :=
  match o with
  | Return _ => True
  | Raise e => is_Exception e = true
  | OutOfFuel => False
  end.

Definition safe {A : Type} (m : M A) : Prop :=
  forall st, sane st -> sane (snd (m st)) /\ outcome_ok (fst (m st)).

Definition returns {A : Type} (m : M A) : Prop :=
  forall st, sane st -> sane (snd (m st)) /\ exists a, fst (m st) = Return a.

(** What a computation leaves alone: [respects R m] when every run of [m]
    takes a state to an [R]-related one. *)
Definition preorder (R : St -> St -> Prop) : Prop :=
  (forall st, R st st) /\ (forall a b c, R a b -> R b c -> R a c).

Definition respects (R : St -> St -> Prop) {A : Type} (m : M A) : Prop :=
  forall st, R st (snd (m st)).


Definition is_recv (e : Sys) : bool :=
  match e with
  | SysRecv _ _ => true
  | _ => false
  end.

(** The only socket calls made are [recv]s. *)
Definition reads_only (st st' : St) : Prop :=
  exists evs,
    syscalls (env st') = syscalls (env st) ++ evs /\ forallb is_recv evs = true.






(** The buffers handed to [send], in order. *)
Fixpoint sends_of (trace : list Sys) : list bytes :=
  match trace with
  | [] => []
  | SysSend data _ :: trace' => data :: sends_of trace'
  | _ :: trace' => sends_of trace'
  end.


(** The value [time.time()] returns next. *)
Definition now (st : St) : float := clock (env st) (ticks (env st)).

(** The [try] statement of [send_message] (lines 54-73) for a given dict;
    [send_message] is this statement once the dict is built. *)
Definition send_try (rt : Runtime) (message_type payload : pystr) (message : pyval)
  : M (option pyval) :=
  try_except
    (serialized <- of_option TypeError (json_dumps rt message) ;;
     message_bytes <- of_option ValueError (str_encode_utf8 rt serialized) ;;
     length <- lift (Struct.pack_I (byteorder rt) (len message_bytes)) ;;
     self_socket_send length ;;
     self_socket_send message_bytes ;;
     print (MsgSent message_type (firstn 50 payload) (50 <? len payload)) ;;
     receive_message rt)
    (fun e =>
       print (MsgSendFailed e) ;;
       ret None).

Definition blank_world : World :=
  {| stdout := []; syscalls := []; clock := fun _ => 0%float; ticks := 0%nat;
     uid := 0; listening := fun _ => None |}.

(** A connected client with nothing but the given stream to read. *)
Definition reader (stream : list RecvEv) : St :=
  {| self := {| socket_path := [];
                socket := Some {| connected := true; inbox := stream; sendq := [] |};
                client_id := [] |};
     env := blank_world |}.

(** What [receive_message] returns on a stream: the next frame, decoded. *)
Definition next_reply (rt : Runtime) (stream : list RecvEv) : Outcome (option pyval) :=
  fst (receive_message rt (reader stream)).

(** ** A service to talk to *)

Module Demo.

(** The service's answer to PING. *)
Definition pong : pyval :=
  envelope (str "PONG") (str "pong") (str "req_1") (str "service").

Definition text_of (message : pyval) : pystr :=
  match CPython.dumps message with
  | Some text => text
  | None => []
  end.

Definition bytes_of (message : pyval) : bytes :=
  match CPython.encode_utf8 (text_of message) with
  | Some data => data
  | None => []
  end.

Definition header_of (data : bytes) : bytes :=
  match Struct.pack_I LittleEndian (len data) with
  | Return header => header
  | _ => []
  end.

Definition frame_of (data : bytes) : bytes := header_of data ++ data.

Definition rt : Runtime :=
  CPython.runtime LittleEndian [(text_of pong, pong)].

(** A clock that is read twice within one millisecond, then a second later. *)
Definition wall_clock (n : nat) : float :=
  match n with
  | 0%nat => 1700000000.5%float
  | 1%nat => 1700000000.50048828125%float
  | _ => 1700000001.75%float
  end.

Definition world_at (n : nat) : World :=
  {| stdout := [];
     syscalls := [];
     clock := wall_clock;
     ticks := n;
     uid := 1000;
     listening := fun _ => None |}.

Definition world : World := world_at 0.

(** A connected client: what the peer will deliver, what the kernel will take. *)
Definition session (stream : list RecvEv) (q : list SendEv) : St :=
  {| self := {| socket_path := str "/tmp/phantom-vault-1000.sock";
                socket := Some {| connected := true; inbox := stream; sendq := q |};
                client_id := str "test_client_1700000000" |};
     env := world |}.

Definition session_at (n : nat) : St :=
  {| self := {| socket_path := str "/tmp/phantom-vault-1000.sock";
                socket := Some {| connected := true; inbox := []; sendq := [] |};
                client_id := str "test_client_1700000000" |};
     env := world_at n |}.

Definition offline : St :=
  {| self := {| socket_path := str "/tmp/phantom-vault-1000.sock";
                socket := None;
                client_id := str "test_client_1700000000" |};
     env := world |}.

Definition ping (request_id : pystr) : pyval :=
  envelope (str "PING") (str "ping") request_id (str "test_client_1700000000").

End Demo.

(** ** What a request leaves of the session *)

Definition is_close (e : Sys) : bool :=
  match e with
  | SysClose => true
  | _ => false
  end.

(** What [connect], [send_message] and [receive_message] keep: the path,
    the client id and the host; a client that has a socket object still has
    one; the clock is only read; no socket is closed. *)
Definition during_requests (st st' : St) : Prop :=
  socket_path (self st') = socket_path (self st) /\
  client_id (self st') = client_id (self st) /\
  clock (env st') = clock (env st) /\
  uid (env st') = uid (env st) /\
  listening (env st') = listening (env st) /\
  (socket (self st) <> None -> socket (self st') <> None) /\
  (ticks (env st) <= ticks (env st'))%nat /\
  exists evs,
    syscalls (env st') = syscalls (env st) ++ evs /\
    forallb (fun e => negb (is_close e)) evs = true.

(** The clock is not read. *)
Definition same_ticks (st st' : St) : Prop :=
  ticks (env st') = ticks (env st).

(** The default path of line 18. *)
Definition default_socket_path (w : World) : pystr :=
  str "/tmp/phantom-vault-" ++ str_of_int (uid w) ++ str ".sock".

(** A message [receive_message] lets through: a dict with a type and a
    payload that can be sliced and measured. *)
Definition well_formed (message : pyval) : Prop :=
  exists d ty payload,
    message = PDict d /\
    dict_get d (str "type") = Some ty /\
    dict_get d (str "payload") = Some payload /\
    ((exists s, payload = PStr s) \/ (exists l, payload = PList l)).

(** * The script: [test_ipc_communication] and [main] *)

(** ** More built-in operations *)

(** [bool(v)] *)
Definition truthy (v : pyval) : bool :=
  match v with
  | PNone => false
  | PBool b => b
  | PInt z => negb (z =? 0)
  | PFloat f => negb (PrimFloat.eqb f 0%float)
  | PStr s => negb (len s =? 0)
  | PList l => negb (len l =? 0)
  | PDict d => negb (len d =? 0)
  end.

(** [v == s] for a [str] literal [s]. *)
Definition eq_str (v : pyval) (s : pystr) : bool :=
  match v with
  | PStr t => pystr_eqb t s
  | _ => false
  end.

(** [response[key]], where [response] may be [None]. *)
Definition subscript (response : option pyval) (key : pystr) : Outcome pyval :=
  match response with
  | Some v => getitem v key
  | None => Raise TypeError
  end.

(** [v.get(key, default)] *)
Definition py_get (v : pyval) (key : pystr) (default : pyval) : Outcome pyval :=
  match v with
  | PDict d =>
      Return (match dict_get d key with
              | Some x => x
              | None => default
              end)
  | _ => Raise AttributeError
  end.

(** The items [for x in v] goes through. *)
Definition py_iter (v : pyval) : Outcome (list pyval) :=
  match v with
  | PList l => Return l
  | PStr s => Return (List.map (fun c => PStr [c]) s)
  | PDict d => Return (List.map (fun kv => PStr (fst kv)) d)
  | _ => Raise TypeError
  end.

(** [json.loads(v)]: of a [str], what the runtime parses; of anything else
    in a message, a [TypeError]. *)
Definition py_json_loads (rt : Runtime) (v : pyval) : Outcome pyval :=
  match v with
  | PStr s =>
      match json_loads rt s with
      | Some x => Return x
      | None => Raise ValueError
      end
  | _ => Raise TypeError
  end.

(** ** What the script prints, and where it runs *)

Inductive Say : Type :=
| SayBanner                       (* line 112 *)
| SayRule                         (* line 113 *)
| SayTest1                        (* line 118 *)
| SayConnectionFailed             (* line 120 *)
| SayTest2                        (* line 124 *)
| SayPingPassed                   (* line 127 *)
| SayPingFailed                   (* line 129 *)
| SayTest3                        (* line 132 *)
| SayVaultPassed                  (* line 135 *)
| SayServiceRunning (v : pyval)   (* line 138 *)
| SayUptime (v : pyval)           (* line 139 *)
| SayActiveProfile (v : pyval)    (* line 140 *)
| SayFolders (n : Z)              (* line 141 *)
| SayStateUnparsed                (* line 143 *)
| SayVaultFailed                  (* line 145 *)
| SayTest4                        (* line 148 *)
| SayProfilesPassed               (* line 151 *)
| SayFound (n : Z)                (* line 155 *)
| SayProfile (name id : pyval)    (* line 157 *)
| SayProfilesUnparsed             (* line 159 *)
| SayProfilesFailed               (* line 161 *)
| SayTest5                        (* line 164 *)
| SayInvalidPassed                (* line 167 *)
| SayNoErrorResponse              (* line 169 *)
| SayCleanup                      (* line 172 *)
| SayCompleted                    (* line 175 *)
| SayHelpTitle                    (* line 182 *)
| SayHelpUsage                    (* line 183 *)
| SayHelpBlank                    (* line 184 *)
| SayHelpPurpose                  (* line 185 *)
| SayHelpDefault                  (* line 186 *)
| SayNotFound (path : pystr)      (* line 198 *)
| SayMakeSure                     (* line 199 *)
| SayStatusCommand                (* line 200 *)
| SayInterrupted                  (* line 207 *)
| SayTestFailed (e : Exn).        (* line 209 *)

(** The process: [sys.argv] and [os.path.exists]. *)
Record Host : Type := {
  argv : list pystr;
  path_exists : pystr -> bool
}.

(** A run of the script: the environment of the clients, and the lines of
    the script, each with the number of lines the clients had printed
    before it, which places it among them. *)
Record Run : Type := {
  out : World;
  report : list (nat * Say)
}.

Definition Script (A : Type) : Type := Run -> Outcome A * Run.

Definition hret {A : Type} (a : A) : Script A := fun r => (Return a, r).

Definition hbind {A B : Type} (m : Script A) (k : A -> Script B) : Script B :=
  fun r =>
    match m r with
    | (Return a, r') => k a r'
    | (Raise e, r') => (Raise e, r')
    | (OutOfFuel, r') => (OutOfFuel, r')
    end.

Declare Scope run_scope.
Delimit Scope run_scope with run.
Notation "x <- m ;; k" := (hbind m (fun x => k))
  (at level 61, m at next level, right associativity) : run_scope.
Notation "m ;; k" := (hbind m (fun _ => k))
  (at level 61, right associativity) : run_scope.
Local Open Scope run_scope.

Definition hlift {A : Type} (o : Outcome A) : Script A := fun r => (o, r).

(** [print(...)] in the script *)
Definition say (l : Say) : Script unit :=
  fun r =>
    (Return tt,
     {| out := out r;
        report := report r ++ [(List.length (stdout (out r)), l)] |}).

(** [try: m  except: h], which catches whatever is raised. *)
Definition try_bare {A : Type} (m : Script A) (h : Script A) : Script A :=
  fun r =>
    match m r with
    | (Raise _, r') => h r'
    | other => other
    end.

(** [PhantomVaultIPCClient(socket_path)] *)
Definition construct (socket_path : option pystr) : Script Client :=
  fun r =>
    let (o, w) := init socket_path (out r) in
    (o, {| out := w; report := report r |}).

(** A method call on the object the local variable [client] names: the
    result, and the object as the call leaves it. *)
Definition call {A : Type} (client : Client) (m : M A) : Script (A * Client) :=
  fun r =>
    let (o, st) := m {| self := client; env := out r |} in
    (match o with
     | Return a => Return (a, self st)
     | Raise e => Raise e
     | OutOfFuel => OutOfFuel
     end,
     {| out := env st; report := report r |}).

(** [for x in items: body x] *)
Fixpoint for_each {A : Type} (items : list A) (body : A -> Script unit) : Script unit :=
  match items with
  | [] => hret tt
  | x :: items' => body x ;; for_each items' body
  end.

Section TestScript.

Variable rt : Runtime.

(** [response and response['type'] == expected] as a condition. *)
Definition check (response : option pyval) (expected : pystr) : Script bool :=
  match response with
  | None => hret false
  | Some v =>
      if truthy v then
        ty <- hlift (getitem v (str "type")) ;;
        hret (eq_str ty expected)
      else hret false
  end.

(** Lines 136-143. *)
Definition vault_details (response : option pyval) : Script unit :=
  try_bare
    (payload <- hlift (subscript response (str "payload")) ;;
     state <- hlift (py_json_loads rt payload) ;;
     running <- hlift (py_get state (str "service_running") (PStr (str "unknown"))) ;;
     say (SayServiceRunning running) ;;
     uptime <- hlift (py_get state (str "uptime_seconds") (PInt 0)) ;;
     say (SayUptime uptime) ;;
     active <- hlift (py_get state (str "active_profile") (PStr (str "none"))) ;;
     say (SayActiveProfile active) ;;
     folders <- hlift (py_get state (str "folders") (PList [])) ;;
     n <- hlift (py_len folders) ;;
     say (SayFolders n))
    (say SayStateUnparsed).

(** Lines 152-159. *)
Definition profile_details (response : option pyval) : Script unit :=
  try_bare
    (payload <- hlift (subscript response (str "payload")) ;;
     profiles_data <- hlift (py_json_loads rt payload) ;;
     profiles <- hlift (py_get profiles_data (str "profiles") (PList [])) ;;
     n <- hlift (py_len profiles) ;;
     say (SayFound n) ;;
     items <- hlift (py_iter profiles) ;;
     for_each items
       (fun profile =>
          name <- hlift (py_get profile (str "name") (PStr (str "Unknown"))) ;;
          id <- hlift (py_get profile (str "id") (PStr (str "N/A"))) ;;
          say (SayProfile name id)))
    (say SayProfilesUnparsed).

(** Lines 123-176: the four exchanges and the cleanup, which
    [test_ipc_communication] goes through once [client] is connected. *)
Definition run_scenarios (client : Client) : Script bool :=
  say SayTest2 ;;
  answer <- call client (send_message rt (str "PING") (str "ping") []) ;;
  let (response, client) := answer in
  passed <- check response (str "PONG") ;;
  (if passed then say SayPingPassed else say SayPingFailed) ;;
  say SayTest3 ;;
  answer <- call client (send_message rt (str "GET_VAULT_STATE") [] []) ;;
  let (response, client) := answer in
  passed <- check response (str "VAULT_STATE_UPDATE") ;;
  (if passed then say SayVaultPassed ;; vault_details response
   else say SayVaultFailed) ;;
  say SayTest4 ;;
  answer <- call client (send_message rt (str "GET_PROFILES") [] []) ;;
  let (response, client) := answer in
  passed <- check response (str "PROFILE_UPDATE") ;;
  (if passed then say SayProfilesPassed ;; profile_details response
   else say SayProfilesFailed) ;;
  say SayTest5 ;;
  answer <- call client (send_message rt (str "INVALID_MESSAGE_TYPE") (str "test") []) ;;
  let (response, client) := answer in
  passed <- check response (str "ERROR_NOTIFICATION") ;;
  (if passed then say SayInvalidPassed else say SayNoErrorResponse) ;;
  say SayCleanup ;;
  call client disconnect ;;
  say SayCompleted ;;
  hret true.

(** [test_ipc_communication()] *)
Definition test_ipc_communication : Script bool :=
  say SayBanner ;;
  say SayRule ;;
  client <- construct None ;;
  say SayTest1 ;;
  connected <- call client connect ;;
  let (ok, client) := connected in
  if negb ok then
    say SayConnectionFailed ;;
    hret false
  else
    run_scenarios client.

(** Lines 195-209 of [main], for the [client] it has made. *)
Definition main_run (host : Host) (client : Client) : Script unit :=
  let socket_path := socket_path client in
  if negb (path_exists host socket_path) then
    say (SayNotFound socket_path) ;;
    say SayMakeSure ;;
    say SayStatusCommand
  else
    fun r =>
      match test_ipc_communication r with
      | (Return _, r') => (Return tt, r')
      | (Raise KeyboardInterrupt, r') => say SayInterrupted r'
      | (Raise e, r') =>
          if is_Exception e then say (SayTestFailed e) r' else (Raise e, r')
      | (OutOfFuel, r') => (OutOfFuel, r')
      end.

(** [main()] *)
Definition main (host : Host) : Script unit :=
  match argv host with
  | _ :: arg :: _ =>
      if pystr_eqb arg (str "--help") then
        say SayHelpTitle ;;
        say SayHelpUsage ;;
        say SayHelpBlank ;;
        say SayHelpPurpose ;;
        say SayHelpDefault
      else
        client <- construct (Some arg) ;;
        main_run host client
  | _ =>
      client <- construct None ;;
      main_run host client
  end.

End TestScript.

Local Close Scope run_scope.

(** ** Notions for the script *)

(** A clock whose readings are numbers: [int(time.time())] and
    [int(time.time() * 1000)] return. *)
Definition finite_clock (w : World) : Prop :=
  forall n,
    (exists s, py_int (clock w n) = Return s) /\
    (exists ms, py_int (PrimFloat.mul (clock w n) 1000) = Return ms).

(** Socket calls were made, none of them a close. *)
Definition not_closing (w w' : World) : Prop :=
  exists evs,
    syscalls w' = syscalls w ++ evs /\
    forallb (fun e => negb (is_close e)) evs = true.

(** Socket calls were made. *)
Definition extends (w w' : World) : Prop :=
  exists evs, syscalls w' = syscalls w ++ evs.

Definition world_preorder (R : World -> World -> Prop) : Prop :=
  (forall w, R w w) /\ (forall a b c, R a b -> R b c -> R a c).

(** Every run of [m] takes the environment to an [R]-related one. *)
Definition keeps (R : World -> World -> Prop) {A : Type} (m : Script A) : Prop :=
  forall r, R (out r) (out (snd (m r))).

(** A step of the script that leaves the environment alone and ends as
    Python can end it. *)
Definition idle {A : Type} (m : Script A) : Prop :=
  forall r, out (snd (m r)) = out r /\ fst (m r) <> OutOfFuel.

(** A step that leaves the environment alone and returns. *)
Definition settled {A : Type} (m : Script A) : Prop :=
  forall r, out (snd (m r)) = out r /\ exists a, fst (m r) = Return a.

(** From an environment where [P] holds, [m] returns, and [Q] holds of
    what it returns and of the environment it leaves. *)
Definition hoare {A : Type} (P : World -> Prop) (m : Script A) (Q : A -> World -> Prop)
  : Prop :=
  forall r, P (out r) -> exists a r', m r = (Return a, r') /\ Q a (out r').

(** Either [m] returns, or it has closed no socket. *)
Definition closes_only_on_return {A : Type} (m : Script A) : Prop :=
  forall r, (exists a, fst (m r) = Return a) \/ not_closing (out r) (out (snd (m r))).

(** What holds of a connected client between two requests of a run that
    was connected in [w0]. *)
Definition between_requests (w0 : World) (client : Client) (w : World) : Prop :=
  sane {| self := client; env := w |} /\
  finite_clock w /\
  socket client <> None /\
  not_closing w0 w.

(** The path [main] looks for: its argument, or the default. *)
Definition chosen_path (host : Host) (w : World) : pystr :=
  match argv host with
  | _ :: arg :: _ => arg
  | _ => default_socket_path w
  end.




(** ** A host to run the script on *)

Module Trial.

(** A service that listens at [path] and will deliver [stream]. *)
Definition service (path : pystr) (stream : list RecvEv) : World :=
  {| stdout := [];
     syscalls := [];
     clock := Demo.wall_clock;
     ticks := 0;
     uid := 1000;
     listening := fun p =>
       if pystr_eqb p path
       then Some {| connected := true; inbox := stream; sendq := [] |}
       else None |}.

Definition default_path : pystr := str "/tmp/phantom-vault-1000.sock".

Definition other_path : pystr := str "/run/phantom-vault.sock".

(** The script started with the given arguments, on a file system where
    the paths of [present] exist. *)
Definition host (args : list pystr) (present : list pystr) : Host :=
  {| argv := str "test-ipc-client.py" :: args;
     path_exists := fun p => existsb (pystr_eqb p) present |}.

Definition start (w : World) : Run := {| out := w; report := [] |}.

(** A runtime whose [json.dumps] refuses every message. *)
Definition strict : Runtime :=
  {| byteorder := LittleEndian;
     json_dumps := fun _ => None;
     str_encode_utf8 := CPython.encode_utf8;
     bytes_decode_utf8 := CPython.decode_ascii;
     json_loads := fun _ => None |}.


(** A client as [main] makes it. *)
Definition client (path : pystr) : Client :=
  {| socket_path := path; socket := None;
     client_id := str "test_client_1700000000" |}.

(** Two profiles, and the reply to GET_PROFILES that lists them. *)
Definition work : list (pystr * pyval) :=
  [(str "id", PStr (str "p1")); (str "name", PStr (str "Work"))].

Definition unnamed : list (pystr * pyval) :=
  [(str "id", PStr (str "p2"))].

Definition profiles_doc : pyval :=
  PDict [(str "profiles", PList [PDict work; PDict unnamed])].

Definition profiles_text : pystr :=
  str "{" ++ CPython.dumps_str (str "profiles") ++ str ": ["
    ++ Demo.text_of (PDict work) ++ str ", " ++ Demo.text_of (PDict unnamed)
    ++ str "]}".


Definition rt : Runtime :=
  CPython.runtime LittleEndian
    [(Demo.text_of Demo.pong, Demo.pong); (profiles_text, profiles_doc)].

End Trial.

(** * Properties *)

(** ** Bytes and [struct] *)

Lemma Z_of_byte_of_Z (z : Z) : Z_of_byte (byte_of_Z z) = z mod 256.
Proof.
  unfold Z_of_byte, byte_of_Z.
  assert (H : 0 <= z mod 256 < 256) by (apply Z.mod_pos_bound; lia).
  destruct (Byte.of_N (Z.to_N (z mod 256))) as [b|] eqn:E.
  - apply Byte.to_of_N in E. rewrite E. lia.
  - apply Byte.of_N_None_iff in E. lia.
Qed.

Lemma Z_of_byte_land_255 (n : Z) :
  Z_of_byte (byte_of_Z (Z.land n 255)) = Z.land n 255.
Proof.
  rewrite Z_of_byte_of_Z. change 255 with (Z.ones 8).
  rewrite Z.land_ones by lia. rewrite Z.mod_mod; [reflexivity|].
  lia.
Qed.

Lemma le_value_le_bytes (n : Z) :
  0 <= n <= Struct.UINT_MAX ->
  match Struct.le_bytes n with
  | [b0; b1; b2; b3] => Struct.le_value b0 b1 b2 b3 = n
  | _ => False
  end.
Proof.
  intros Hn. unfold Struct.le_bytes, Struct.le_value.
  rewrite !Z_of_byte_land_255.
  change 255 with (Z.ones 8).
  apply Z.bits_inj'. intros i Hi.
  rewrite !Z.lor_spec, !Z.shiftl_spec by lia.
  rewrite !Z.land_spec.
  destruct (Z.ltb_spec i 8).
  { rewrite (Z.testbit_neg_r _ (i - 8)), (Z.testbit_neg_r _ (i - 16)), (Z.testbit_neg_r _ (i - 24)) by lia.
    rewrite Z.testbit_ones_nonneg by lia.
    replace (i <? 8) with true by (symmetry; apply Z.ltb_lt; lia).
    simpl. rewrite !orb_false_r, andb_true_r. reflexivity. }
  rewrite (Z.testbit_ones_nonneg 8 i) by lia.
  replace (i <? 8) with false by (symmetry; apply Z.ltb_ge; lia).
  rewrite andb_false_r. simpl.
  destruct (Z.ltb_spec i 16).
  { rewrite (Z.testbit_neg_r _ (i - 16)), (Z.testbit_neg_r _ (i - 24)) by lia.
    rewrite Z.shiftr_spec by lia.
    rewrite Z.testbit_ones_nonneg by lia.
    replace (i - 8 <? 8) with true by (symmetry; apply Z.ltb_lt; lia).
    simpl. rewrite !orb_false_r, andb_true_r. f_equal. lia. }
  rewrite (Z.testbit_ones_nonneg 8 (i - 8)) by lia.
  replace (i - 8 <? 8) with false by (symmetry; apply Z.ltb_ge; lia).
  rewrite andb_false_r. simpl.
  destruct (Z.ltb_spec i 24).
  { rewrite (Z.testbit_neg_r _ (i - 24)) by lia.
    rewrite Z.shiftr_spec by lia.
    rewrite Z.testbit_ones_nonneg by lia.
    replace (i - 16 <? 8) with true by (symmetry; apply Z.ltb_lt; lia).
    simpl. rewrite !orb_false_r, andb_true_r. f_equal. lia. }
  rewrite (Z.testbit_ones_nonneg 8 (i - 16)) by lia.
  replace (i - 16 <? 8) with false by (symmetry; apply Z.ltb_ge; lia).
  rewrite andb_false_r. simpl.
  rewrite Z.shiftr_spec by lia.
  rewrite Z.testbit_ones_nonneg by lia.
  replace (i - 24 + 24) with i by lia.
  destruct (Z.ltb_spec (i - 24) 8).
  { rewrite andb_true_r. reflexivity. }
  rewrite andb_false_r. symmetry.
  destruct (Z.eq_dec n 0) as [->|Hn0]; [apply Z.testbit_0_l|].
  apply Z.bits_above_log2; [lia|].
  apply Z.log2_lt_pow2; [lia|].
  unfold Struct.UINT_MAX in Hn.
  apply Z.lt_le_trans with (2 ^ 32); [lia|].
  apply Z.pow_le_mono_r; lia.
Qed.

(** What is packed is four bytes long and unpacks to the same number. *)
Lemma unpack_pack_I (bo : ByteOrder) (n : Z) :
  0 <= n <= Struct.UINT_MAX ->
  exists header,
    Struct.pack_I bo n = Return header /\
    List.length header = 4%nat /\
    Struct.unpack_I bo header = Return n.
Proof.
  intros Hn. pose proof (le_value_le_bytes n Hn) as Hv.
  unfold Struct.pack_I.
  replace ((0 <=? n) && (n <=? Struct.UINT_MAX)) with true
    by (symmetry; apply andb_true_iff; split; apply Z.leb_le; lia).
  unfold Struct.le_bytes in *.
  destruct bo; eexists; (split; [reflexivity|split; [reflexivity|]]);
    cbv [rev app Struct.unpack_I]; rewrite Hv; reflexivity.
Qed.

Lemma pack_I_inv (bo : ByteOrder) (n : Z) (header : bytes) :
  Struct.pack_I bo n = Return header ->
  List.length header = 4%nat /\ Struct.unpack_I bo header = Return n.
Proof.
  intros H.
  assert (Hn : 0 <= n <= Struct.UINT_MAX).
  { unfold Struct.pack_I in H.
    destruct ((0 <=? n) && (n <=? Struct.UINT_MAX)) eqn:E; [|discriminate].
    apply andb_true_iff in E as [E1 E2]. apply Z.leb_le in E1, E2. lia. }
  destruct (unpack_pack_I bo n Hn) as (h & Hp & Hl & Hu).
  rewrite H in Hp. inversion Hp; subst. auto.
Qed.

Lemma unpack_I_ok (bo : ByteOrder) (data : bytes) :
  outcome_ok (Struct.unpack_I bo data).
Proof.
  unfold Struct.unpack_I.
  destruct data as [|? [|? [|? [|? [|? ?]]]]]; simpl; auto.
Qed.

Lemma pack_I_ok (bo : ByteOrder) (n : Z) : outcome_ok (Struct.pack_I bo n).
Proof.
  unfold Struct.pack_I. destruct ((0 <=? n) && (n <=? Struct.UINT_MAX)); simpl; auto.
Qed.

Lemma len_app {A} (a b : list A) : len (a ++ b) = len a + len b.
Proof. unfold len. rewrite length_app. lia. Qed.

Lemma len_nonneg {A} (a : list A) : 0 <= len a.
Proof. unfold len. lia. Qed.


(** ** Built-in operations end in errors, if not well *)

Lemma getitem_ok (v : pyval) (key : pystr) : outcome_ok (getitem v key).
Proof.
  destruct v; simpl; auto. destruct (dict_get d key); simpl; auto.
Qed.

Lemma slice_50_ok (v : pyval) : outcome_ok (slice_50 v).
Proof. destruct v; simpl; auto. Qed.

Lemma py_len_ok (v : pyval) : outcome_ok (py_len v).
Proof. destruct v; simpl; auto. Qed.

(** ** The primitives, unfolded *)

Lemma bind_self_socket {A : Type} (k : option Sock -> M A) (st : St) :
  bind self_socket k st = k (socket (self st)) st.
Proof. reflexivity. Qed.

Lemma self_socket_recv_some (n : Z) (st : St) (s : Sock) :
  socket (self st) = Some s ->
  self_socket_recv n st =
  (fst (Socket.recv s n),
   {| self := set_socket (self st) (Some (snd (Socket.recv s n)));
      env := log_sys (env st) (SysRecv n (fst (Socket.recv s n))) |}).
Proof.
  intros H. unfold self_socket_recv. rewrite H.
  destruct (Socket.recv s n). reflexivity.
Qed.

Lemma self_socket_send_some (data : bytes) (st : St) (s : Sock) :
  socket (self st) = Some s ->
  self_socket_send data st =
  (fst (Socket.send s data),
   {| self := set_socket (self st) (Some (snd (Socket.send s data)));
      env := log_sys (env st) (SysSend data (fst (Socket.send s data))) |}).
Proof.
  intros H. unfold self_socket_send. rewrite H.
  destruct (Socket.send s data). reflexivity.
Qed.

Lemma recv_arrive (s : Sock) (n : Z) (chunk : bytes) (rest : list RecvEv) :
  connected s = true ->
  inbox s = Arrive chunk :: rest ->
  Socket.recv s n =
  (Return (firstn (Z.to_nat n) chunk),
   {| connected := true;
      inbox := match skipn (Z.to_nat n) chunk with
               | [] => rest
               | later => Arrive later :: rest
               end;
      sendq := sendq s |}).
Proof.
  intros Hc Hin. unfold Socket.recv. rewrite Hc, Hin. reflexivity.
Qed.


Lemma recv_loop_done (fuel : nat) (L : Z) (data : bytes) :
  L <= len data -> recv_loop fuel L data = ret data.
Proof.
  intros H. destruct fuel; simpl;
    replace (len data <? L) with false by (symmetry; apply Z.ltb_ge; lia);
    reflexivity.
Qed.

Lemma recv_loop_turn (fuel : nat) (L : Z) (data : bytes) :
  len data < L ->
  recv_loop (S fuel) L data =
  bind (self_socket_recv (L - len data))
    (fun chunk =>
       match chunk with
       | [] => ret data
       | _ :: _ => recv_loop fuel L (data ++ chunk)
       end).
Proof.
  intros H. simpl.
  replace (len data <? L) with true by (symmetry; apply Z.ltb_lt; lia).
  reflexivity.
Qed.

(** ** Reading from a stream of chunks *)

(** The loop on a stream of non-empty chunks: it returns what it had and
    the first [message_length - len(message_data)] bytes of the stream, or
    all of them when the stream ends before; the rest stays in the socket. *)
Lemma recv_loop_stream (chunks : list bytes) (rest : list RecvEv) :
  Forall (fun c => c <> []) chunks ->
  forall (fuel : nat) (L : Z) (data : bytes) (st : St) (s : Sock),
    socket (self st) = Some s ->
    connected s = true ->
    inbox s = deliver chunks ++ rest ->
    len data <= L ->
    (Z.to_nat (L - len data) <= fuel)%nat ->
    rest = [] \/ L - len data <= len (List.concat chunks) ->
    exists st' s' chunks',
      recv_loop fuel L data st =
        (Return (data ++ firstn (Z.to_nat (L - len data)) (List.concat chunks)), st') /\
      socket (self st') = Some s' /\
      connected s' = true /\
      sendq s' = sendq s /\
      inbox s' = deliver chunks' ++ rest /\
      Forall (fun c => c <> []) chunks' /\
      List.concat chunks' = skipn (Z.to_nat (L - len data)) (List.concat chunks) /\
      stdout (env st') = stdout (env st).
Proof.
  induction 1 as [|c cs Hc Hcs IH]; intros fuel L data st s Hs Hconn Hin Hle Hfuel Hend.
  - (* nothing more arrives *)
    destruct (Z.eq_dec (len data) L) as [Heq|Hne].
    + rewrite recv_loop_done by lia.
      exists st, s, []. replace (L - len data) with 0 by lia.
      simpl. rewrite app_nil_r. repeat split; auto.
    + destruct Hend as [->|Hend]; [|unfold len in *; simpl in Hend; lia].
      destruct fuel as [|fuel]; [lia|].
      rewrite recv_loop_turn by lia.
      unfold bind, self_socket_recv. rewrite Hs.
      unfold Socket.recv. rewrite Hconn, Hin. simpl.
      eexists _, _, []. rewrite firstn_nil, skipn_nil, app_nil_r.
      repeat split; simpl; auto.
  - destruct (Z.eq_dec (len data) L) as [Heq|Hne].
    + rewrite recv_loop_done by lia.
      exists st, s, (c :: cs). replace (L - len data) with 0 by lia.
      simpl. rewrite app_nil_r. repeat split; auto.
    + destruct fuel as [|fuel]; [lia|].
      rewrite recv_loop_turn by lia.
      unfold bind, self_socket_recv. rewrite Hs.
      unfold Socket.recv. rewrite Hconn, Hin. simpl.
      set (n := Z.to_nat (L - len data)) in *.
      assert (Hn : (0 < n)%nat) by (unfold n; lia).
      destruct c as [|b c']; [congruence|].
      destruct n as [|n'] eqn:En; [lia|].
      destruct (Nat.le_gt_cases (List.length (b :: c')) (S n')) as [Hshort|Hlong].
      * (* the whole chunk is taken *)
        rewrite (skipn_all2 (b :: c')) by exact Hshort.
        rewrite (firstn_all2 (n:=S n') (b :: c')) by exact Hshort.
        set (st1 := {| self := _; env := _ |}).
        assert (Hrem : Z.to_nat (L - len (data ++ b :: c')) = (S n' - List.length (b :: c'))%nat).
        { rewrite len_app. unfold len in *. simpl List.length in *. lia. }
        edestruct (IH fuel L (data ++ b :: c') st1) as (st' & s' & chunks' & Hrun & Hs' & Hc' & Hq' & Hin' & Hne' & Hcat' & Hout');
          [reflexivity|reflexivity|reflexivity| | | |].
        { rewrite len_app. unfold len in *. simpl List.length in *. lia. }
        { rewrite Hrem. simpl List.length in *. lia. }
        { destruct Hend as [->|Hend]; [left; reflexivity|right].
          rewrite len_app. change (List.concat ((b :: c') :: cs)) with ((b :: c') ++ List.concat cs) in Hend. rewrite len_app in Hend.
          lia. }
        exists st', s', chunks'.
        rewrite Hrem in *.
        split.
        { rewrite Hrun. f_equal. f_equal. rewrite <- app_assoc. f_equal.
          change (List.concat ((b :: c') :: cs)) with ((b :: c') ++ List.concat cs). rewrite firstn_app.
          rewrite (firstn_all2 (n:=S n') (b :: c')) by exact Hshort.
          reflexivity. }
        repeat split; auto.
        change (List.concat ((b :: c') :: cs)) with ((b :: c') ++ List.concat cs). rewrite skipn_app.
        rewrite (skipn_all2 (b :: c')) by exact Hshort. exact Hcat'.
      * (* the chunk holds more than is asked for *)
        assert (Hlater : skipn (S n') (b :: c') <> []).
        { intros E. apply (f_equal (@List.length _)) in E.
          rewrite length_skipn in E. simpl in E, Hlong. lia. }
        destruct (skipn (S n') (b :: c')) as [|l0 later] eqn:Esk; [congruence|].
        assert (Hlen1 : List.length (firstn (S n') (b :: c')) = S n')
          by (apply firstn_length_le; lia).
        cbn [firstn] in Hlen1 |- *.
        rewrite recv_loop_done.
        2:{ rewrite len_app. unfold len in *. rewrite Hlen1. lia. }
        eexists _, _, ((l0 :: later) :: cs).
        split.
        { unfold ret. f_equal. f_equal. f_equal. simpl. f_equal.
          rewrite firstn_app.
          replace (n' - List.length c')%nat with 0%nat by (simpl in Hlong; lia).
          simpl. rewrite app_nil_r. reflexivity. }
        simpl. repeat split; auto.
        rewrite skipn_app.
        replace (n' - List.length c')%nat with 0%nat by (simpl in Hlong; lia).
        simpl in Esk. rewrite Esk. reflexivity.
Qed.

(** The header arrives whole, then the data in any pieces. *)
Lemma read_frame_stream (rt : Runtime) (chunks : list bytes) (rest : list RecvEv)
      (st : St) (s : Sock) (header tail : bytes) (L : Z) :
  socket (self st) = Some s ->
  connected s = true ->
  inbox s = deliver chunks ++ rest ->
  Forall (fun c => c <> []) chunks ->
  List.concat chunks = header ++ tail ->
  List.length header = 4%nat ->
  (4 <= List.length (hd [] chunks))%nat ->
  Struct.unpack_I (byteorder rt) header = Return L ->
  0 <= L ->
  rest = [] \/ L <= len tail ->
  exists st' s' chunks',
    read_frame rt st =
      (Return (if len (firstn (Z.to_nat L) tail) =? L
               then Frame (firstn (Z.to_nat L) tail)
               else IncompleteMessage (firstn (Z.to_nat L) tail) L), st') /\
    socket (self st') = Some s' /\
    inbox s' = deliver chunks' ++ rest /\
    List.concat chunks' = skipn (Z.to_nat L) tail /\
    stdout (env st') = stdout (env st).
Proof.
  intros Hs Hc Hin Hne Hcat Hlen Hfirst Hun HL Hend.
  destruct chunks as [|c0 cs]; [simpl in Hfirst; lia|].
  simpl in Hfirst. change (List.concat (c0 :: cs)) with (c0 ++ List.concat cs) in Hcat.
  assert (Hhead : firstn 4 c0 = header).
  { apply (f_equal (firstn 4)) in Hcat.
    rewrite firstn_app, (firstn_app 4 header) in Hcat.
    replace (4 - List.length c0)%nat with 0%nat in Hcat by lia.
    replace (4 - List.length header)%nat with 0%nat in Hcat by lia.
    rewrite !firstn_O, !app_nil_r in Hcat.
    rewrite Hcat. apply firstn_all2. lia. }
  assert (Htail : skipn 4 c0 ++ List.concat cs = tail).
  { apply (f_equal (skipn 4)) in Hcat.
    rewrite skipn_app, (skipn_app 4 header) in Hcat.
    replace (4 - List.length c0)%nat with 0%nat in Hcat by lia.
    replace (4 - List.length header)%nat with 0%nat in Hcat by lia.
    rewrite (skipn_all2 header) in Hcat by lia. exact Hcat. }
  pose proof (Forall_inv Hne) as Hc0. pose proof (Forall_inv_tail Hne) as Hcs.
  set (chunks1 := match skipn 4 c0 with [] => cs | later => later :: cs end).
  assert (Hne1 : Forall (fun c : bytes => c <> []) chunks1).
  { unfold chunks1. destruct (skipn 4 c0) eqn:E; [exact Hcs|].
    constructor; [discriminate|exact Hcs]. }
  assert (Hcat1 : List.concat chunks1 = tail).
  { unfold chunks1. rewrite <- Htail. destruct (skipn 4 c0); reflexivity. }
  unfold read_frame. unfold bind at 1.
  rewrite (self_socket_recv_some 4 st s Hs).
  rewrite (recv_arrive s 4 c0 (deliver cs ++ rest) Hc Hin).
  change (Z.to_nat 4) with 4%nat. cbn [fst snd].
  rewrite Hhead.
  replace (len header =? 4) with true
    by (symmetry; apply Z.eqb_eq; unfold len; rewrite Hlen; reflexivity).
  cbn [negb]. unfold bind at 1. rewrite Hun. unfold lift at 1.
  set (st1 := {| self := _; env := _ |}).
  assert (Hin1 : exists s1, socket (self st1) = Some s1 /\ connected s1 = true /\
                            inbox s1 = deliver chunks1 ++ rest).
  { eexists. split; [reflexivity|]. split; [reflexivity|].
    unfold chunks1. cbn [inbox]. destruct (skipn 4 c0); reflexivity. }
  destruct Hin1 as (s1 & Hs1 & Hc1 & Hin1).
  assert (H0 : len (@nil byte) = 0) by reflexivity.
  assert (Hend1 : rest = [] \/ L - len (@nil byte) <= len (List.concat chunks1)).
  { destruct Hend as [->|Hend]; [left; reflexivity|right]. rewrite Hcat1. lia. }
  destruct (recv_loop_stream chunks1 rest Hne1 (Z.to_nat L) L [] st1 s1
              Hs1 Hc1 Hin1 ltac:(lia) ltac:(lia) Hend1)
    as (st' & s' & chunks' & Hrun & Hs' & _ & _ & Hin' & _ & Hcat' & Hout').
  unfold bind at 1. rewrite Hrun.
  replace (L - len (@nil byte)) with L in * by (unfold len; simpl; lia).
  rewrite Hcat1 in *.
  change ([] ++ firstn (Z.to_nat L) tail) with (firstn (Z.to_nat L) tail).
  exists st', s', chunks'. split.
  - destruct (len (firstn (Z.to_nat L) tail) =? L); reflexivity.
  - repeat split; auto.
Qed.

(** ** What reading leaves alone *)

Lemma respects_ret R {A : Type} (a : A) : preorder R -> respects R (ret a).
Proof. intros [Hr _] st. apply Hr. Qed.

Lemma respects_lift R {A : Type} (o : Outcome A) :
  preorder R -> respects R (lift o).
Proof. intros [Hr _] st. apply Hr. Qed.

Lemma respects_of_option R {A : Type} (e : Exn) (o : option A) :
  preorder R -> respects R (of_option e o).
Proof. intros [Hr _]. destruct o; intros st; apply Hr. Qed.

Lemma respects_self_socket R : preorder R -> respects R self_socket.
Proof. intros [Hr _] st. apply Hr. Qed.

Lemma respects_bind R {A B : Type} (m : M A) (k : A -> M B) :
  preorder R ->
  respects R m -> (forall a, respects R (k a)) -> respects R (bind m k).
Proof.
  intros [_ Ht] Hm Hk st. unfold bind. specialize (Hm st).
  destruct (m st) as [[a|e|] st1]; simpl in *; auto.
  eapply Ht; [exact Hm|apply Hk].
Qed.

Lemma respects_try_except R {A : Type} (m : M A) (h : Exn -> M A) :
  preorder R ->
  respects R m -> (forall e, respects R (h e)) -> respects R (try_except m h).
Proof.
  intros [_ Ht] Hm Hh st. unfold try_except. specialize (Hm st).
  destruct (m st) as [[a|e|] st1]; simpl in *; auto.
  destruct (is_Exception e); simpl; auto.
  eapply Ht; [exact Hm|apply Hh].
Qed.

Ltac case_split :=
  match goal with
  | |- context [match ?x with _ => _ end] => is_var x; destruct x
  | |- context [if ?b then _ else _] => destruct b
  end.

Ltac respects_step :=
  first
    [ apply respects_ret; assumption
    | apply respects_lift; assumption
    | apply respects_of_option; assumption
    | apply respects_self_socket; assumption
    | apply respects_bind; [assumption | | intros ?]
    | apply respects_try_except; [assumption | | intros ?] ].

Lemma respects_recv_loop R (fuel : nat) (L : Z) :
  preorder R ->
  (forall n, respects R (self_socket_recv n)) ->
  forall data, respects R (recv_loop fuel L data).
Proof.
  intros HR Hrecv.
  induction fuel as [|fuel IH]; intros data; simpl;
    repeat first [respects_step | apply Hrecv | apply IH | case_split].
Qed.

Lemma respects_read_frame R (rt : Runtime) :
  preorder R ->
  (forall n, respects R (self_socket_recv n)) ->
  respects R (read_frame rt).
Proof.
  intros HR Hrecv. unfold read_frame.
  repeat first [respects_step | apply Hrecv
               | apply respects_recv_loop; assumption | case_split].
Qed.





Lemma reads_only_refl st : reads_only st st.
Proof. exists []. rewrite app_nil_r. auto. Qed.

Lemma reads_only_trans a b c : reads_only a b -> reads_only b c -> reads_only a c.
Proof.
  intros (e1 & H1 & F1) (e2 & H2 & F2). exists (e1 ++ e2).
  rewrite H2, H1, app_assoc, forallb_app, F1, F2. auto.
Qed.

Lemma reads_only_preorder : preorder reads_only.
Proof. split; [exact reads_only_refl|exact reads_only_trans]. Qed.

Lemma reads_only_recv n : respects reads_only (self_socket_recv n).
Proof.
  intros st. unfold self_socket_recv.
  destruct (socket (self st)) as [s|]; [|apply reads_only_refl].
  destruct (Socket.recv s n) as [r s']. simpl.
  exists [SysRecv n r]. auto.
Qed.

Lemma reads_only_print l : respects reads_only (print l).
Proof. intros st. exists []. simpl. rewrite app_nil_r. auto. Qed.

Lemma reads_only_receive_message (rt : Runtime) :
  respects reads_only (receive_message rt).
Proof.
  pose proof reads_only_preorder as HR.
  unfold receive_message.
  repeat first [apply respects_read_frame; [assumption|apply reads_only_recv]
               | apply reads_only_print | respects_step | case_split].
Qed.

Lemma sends_of_recvs (evs : list Sys) :
  forallb is_recv evs = true -> sends_of evs = [].
Proof.
  induction evs as [|[| | |] evs IH]; simpl; intros H; try discriminate; auto.
Qed.

Lemma sends_of_app (a b : list Sys) : sends_of (a ++ b) = sends_of a ++ sends_of b.
Proof.
  induction a as [|[| | |] a IH]; simpl; rewrite ?IH; auto.
Qed.


(** ** Errors are caught, and the loop has fuel enough *)

Lemma safe_ret {A : Type} (a : A) : safe (ret a).
Proof. intros st H. simpl. auto. Qed.

Lemma safe_lift {A : Type} (o : Outcome A) : outcome_ok o -> safe (lift o).
Proof. intros Ho st H. simpl. auto. Qed.

Lemma safe_of_option {A : Type} (e : Exn) (o : option A) :
  is_Exception e = true -> safe (of_option e o).
Proof. intros He. destruct o; intros st H; simpl; auto. Qed.

Lemma safe_bind {A B : Type} (m : M A) (k : A -> M B) :
  safe m -> (forall a, safe (k a)) -> safe (bind m k).
Proof.
  intros Hm Hk st H. unfold bind. destruct (Hm st H) as [H1 H2].
  destruct (m st) as [[a|e|] st1]; simpl in *; auto.
  apply Hk, H1.
Qed.

Lemma safe_print (l : Line) : safe (print l).
Proof. intros st H. simpl. auto. Qed.

Lemma sock_sane_recv (s : Sock) (n : Z) :
  sock_sane s = true ->
  sock_sane (snd (Socket.recv s n)) = true /\ outcome_ok (fst (Socket.recv s n)).
Proof.
  unfold sock_sane, Socket.recv. intros H.
  apply andb_true_iff in H as [Hi Hq].
  destruct (connected s); simpl; [|rewrite Hi, Hq; auto].
  destruct (inbox s) as [|[chunk|e] rest] eqn:Ein; simpl in *.
  - rewrite Ein, Hq. auto.
  - rewrite Hq, andb_true_r. split; [|exact I].
    destruct (skipn (Z.to_nat n) chunk); simpl; exact Hi.
  - apply andb_true_iff in Hi as [He Hi]. rewrite Hi, Hq. auto.
Qed.

Lemma sock_sane_send (s : Sock) (data : bytes) :
  sock_sane s = true ->
  sock_sane (snd (Socket.send s data)) = true /\ outcome_ok (fst (Socket.send s data)).
Proof.
  unfold sock_sane, Socket.send. intros H.
  apply andb_true_iff in H as [Hi Hq].
  destruct (connected s); simpl; [|rewrite Hi, Hq; auto].
  destruct (sendq s) as [|[k|e] rest] eqn:Eq; simpl in *.
  - rewrite Eq, Hi. auto.
  - rewrite Hi, Hq. auto.
  - apply andb_true_iff in Hq as [He Hq]. rewrite Hi, Hq. auto.
Qed.

Lemma safe_recv (n : Z) : safe (self_socket_recv n).
Proof.
  intros st H. unfold self_socket_recv, sane in *.
  destruct (socket (self st)) as [s|] eqn:E; simpl; [|rewrite E; auto].
  destruct (sock_sane_recv s n H) as [H1 H2].
  destruct (Socket.recv s n) as [r s']. simpl in *. auto.
Qed.

Lemma safe_send (data : bytes) : safe (self_socket_send data).
Proof.
  intros st H. unfold self_socket_send, sane in *.
  destruct (socket (self st)) as [s|] eqn:E; simpl; [|rewrite E; auto].
  destruct (sock_sane_send s data H) as [H1 H2].
  destruct (Socket.send s data) as [r s']. simpl in *. auto.
Qed.

(** The fuel [read_frame] gives the loop is enough. *)
Lemma safe_recv_loop (fuel : nat) (L : Z) :
  forall data,
    (Z.to_nat (L - len data) <= fuel)%nat ->
    safe (recv_loop fuel L data).
Proof.
  induction fuel as [|fuel IH]; intros data Hfuel.
  - rewrite recv_loop_done by lia. apply safe_ret.
  - destruct (Z.lt_ge_cases (len data) L) as [Hlt|Hge].
    + rewrite recv_loop_turn by exact Hlt.
      apply safe_bind; [apply safe_recv|].
      intros [|b chunk]; [apply safe_ret|].
      apply IH. rewrite len_app. unfold len in *. simpl List.length. lia.
    + rewrite recv_loop_done by lia. apply safe_ret.
Qed.

Lemma safe_read_frame (rt : Runtime) : safe (read_frame rt).
Proof.
  unfold read_frame.
  apply safe_bind; [apply safe_recv|]. intros length_data.
  destruct (negb (len length_data =? 4)); [apply safe_ret|].
  apply safe_bind; [apply safe_lift, unpack_I_ok|]. intros message_length.
  apply safe_bind.
  { apply safe_recv_loop. unfold len. simpl. lia. }
  intros message_data.
  destruct (negb (len message_data =? message_length)); apply safe_ret.
Qed.

Ltac safe_step :=
  first
    [ apply safe_ret
    | apply safe_print
    | apply safe_recv
    | apply safe_send
    | apply safe_read_frame
    | apply safe_of_option; reflexivity
    | apply safe_lift;
      first [apply getitem_ok | apply slice_50_ok | apply py_len_ok
            | apply pack_I_ok | apply unpack_I_ok]
    | apply safe_bind; [|intros ?]
    | case_split ].

Lemma returns_ret {A : Type} (a : A) : returns (ret a).
Proof. intros st H. simpl. eauto. Qed.

Lemma returns_print (l : Line) : returns (print l).
Proof. intros st H. simpl. eauto. Qed.

Lemma returns_bind {A B : Type} (m : M A) (k : A -> M B) :
  returns m -> (forall a, returns (k a)) -> returns (bind m k).
Proof.
  intros Hm Hk st H. unfold bind. destruct (Hm st H) as [H1 [a Ha]].
  destruct (m st) as [o st1]. simpl in *. subst o. apply Hk, H1.
Qed.

Lemma returns_try_except {A : Type} (m : M A) (h : Exn -> M A) :
  safe m -> (forall e, returns (h e)) -> returns (try_except m h).
Proof.
  intros Hm Hh st H. unfold try_except. destruct (Hm st H) as [H1 H2].
  destruct (m st) as [[a|e|] st1]; simpl in *.
  - eauto.
  - rewrite H2. apply Hh, H1.
  - contradiction.
Qed.

(** [receive_message] returns: no error leaves it, no fuel runs out. *)
Lemma returns_receive_message (rt : Runtime) : returns (receive_message rt).
Proof.
  unfold receive_message. intros st H. rewrite bind_self_socket.
  destruct (socket (self st)) as [s|] eqn:E; [|simpl; eauto].
  refine (returns_try_except _ _ _ _ st H).
  - repeat safe_step.
  - intros e. apply returns_bind; [apply returns_print|intros; apply returns_ret].
Qed.



(** What [receive_message] lets through is not an [Exception]. *)
Lemma receive_message_raises (rt : Runtime) (st st' : St) (e : Exn) :
  receive_message rt st = (Raise e, st') -> is_Exception e = false.
Proof.
  unfold receive_message. rewrite bind_self_socket.
  destruct (socket (self st)); [|discriminate].
  unfold try_except.
  match goal with |- context [match ?m st with _ => _ end] => destruct (m st) as [[a|e0|] st1] end;
    try discriminate.
  destruct (is_Exception e0) eqn:E0; [discriminate|].
  intros H. inversion H; subst. exact E0.
Qed.

(** ** Two runs on the same stream *)













(** ** [send_message], step by step *)

Lemma send_message_unfold (rt : Runtime) (mt payload rid : pystr) (st : St) :
  send_message rt mt payload rid st =
  match socket (self st) with
  | None => (Return None, {| self := self st; env := log_line (env st) MsgNotConnected |})
  | Some _ =>
      match request_id_or_default rid st with
      | (Return rid', st0) =>
          send_try rt mt payload (envelope mt payload rid' (client_id (self st0))) st0
      | (Raise e, st0) => (Raise e, st0)
      | (OutOfFuel, st0) => (OutOfFuel, st0)
      end
  end.
Proof.
  unfold send_message. rewrite bind_self_socket.
  destruct (socket (self st)); [|reflexivity].
  unfold bind at 1. destruct (request_id_or_default rid st) as [[rid'|e|] st0]; reflexivity.
Qed.

Lemma request_id_or_default_frame (rid : pystr) (st : St) :
  self (snd (request_id_or_default rid st)) = self st /\
  stdout (env (snd (request_id_or_default rid st))) = stdout (env st) /\
  syscalls (env (snd (request_id_or_default rid st))) = syscalls (env st).
Proof.
  destruct rid as [|c rid]; simpl; auto.
  unfold bind, time_time, lift.
  destruct (py_int _); simpl; auto.
Qed.

Lemma request_id_or_default_returns (rid : pystr) (st : St) :
  rid <> [] \/ (exists ms, py_int (PrimFloat.mul (now st) 1000) = Return ms) ->
  exists rid', fst (request_id_or_default rid st) = Return rid'.
Proof.
  intros H. destruct rid as [|c rid]; simpl; eauto.
  destruct H as [H|[ms H]]; [congruence|].
  unfold bind, time_time, lift, now in *. simpl. rewrite H. simpl. eauto.
Qed.

(** Running the [try] statement one call at a time. *)
Ltac enter_try := unfold send_try, try_except.

Ltac step H := unfold bind at 1; rewrite H; simpl.

Ltac step_send Hs H :=
  unfold bind at 1;
  first [ rewrite (self_socket_send_some _ _ _ Hs)
        | erewrite self_socket_send_some by reflexivity ];
  rewrite H; simpl.

(** What the [try] statement does once the bytes are made and both [send]
    calls have returned: it reads the reply. *)
Lemma send_try_sent (rt : Runtime) (mt payload : pystr) (message : pyval)
      (st : St) (s s1 s2 : Sock) (text : pystr) (body header : bytes) (k1 k2 : Z) :
  socket (self st) = Some s ->
  json_dumps rt message = Some text ->
  str_encode_utf8 rt text = Some body ->
  Struct.pack_I (byteorder rt) (len body) = Return header ->
  Socket.send s header = (Return k1, s1) ->
  Socket.send s1 body = (Return k2, s2) ->
  send_try rt mt payload message st =
  receive_message rt
    {| self := set_socket (self st) (Some s2);
       env := log_line
                (log_sys (log_sys (env st) (SysSend header (Return k1)))
                   (SysSend body (Return k2)))
                (MsgSent mt (firstn 50 payload) (50 <? len payload)) |}.
Proof.
  intros Hs Hd He Hp H1 H2.
  match goal with |- _ = receive_message rt ?x => set (st3 := x) end.
  unfold send_try, try_except.
  match goal with
  | |- match ?m st with _ => _ end = _ =>
      assert (Hb : m st = receive_message rt st3)
  end.
  { unfold bind at 1. rewrite Hd. simpl of_option. unfold ret at 1.
    unfold bind at 1. rewrite He. simpl of_option. unfold ret at 1.
    unfold bind at 1. rewrite Hp. unfold lift at 1.
    unfold bind at 1. rewrite (self_socket_send_some header st s Hs), H1.
    simpl fst. simpl snd.
    unfold bind at 1. erewrite self_socket_send_some by reflexivity.
    rewrite H2. simpl fst. simpl snd.
    unfold bind at 1. unfold print at 1.
    destruct st as [[p so cid] w]. reflexivity. }
  rewrite Hb.
  destruct (receive_message rt st3) as [[a|e|] st'] eqn:E; try reflexivity.
  rewrite (receive_message_raises rt st3 st' e E). reflexivity.
Qed.


(** The buffers the [try] statement hands to [send]. *)
Lemma send_try_trace (rt : Runtime) (mt payload : pystr) (message : pyval)
      (st : St) (s : Sock) :
  socket (self st) = Some s ->
  exists new,
    syscalls (env (snd (send_try rt mt payload message st))) = syscalls (env st) ++ new /\
    (sends_of new = [] \/
     exists text body header,
       json_dumps rt message = Some text /\
       str_encode_utf8 rt text = Some body /\
       Struct.pack_I (byteorder rt) (len body) = Return header /\
       (sends_of new = [header] \/ sends_of new = [header; body])).
Proof.
  intros Hs.
  assert (Hfail : forall e (st1 : St) new,
             syscalls (env st1) = syscalls (env st) ++ new ->
             syscalls (env (snd ((if is_Exception e
                                  then (print (MsgSendFailed e) ;; ret (@None pyval)) st1
                                  else (Raise e, st1)) : Outcome (option pyval) * St)))
             = syscalls (env st) ++ new).
  { intros e st1 new Hq. destruct (is_Exception e); simpl; exact Hq. }
  destruct (json_dumps rt message) as [text|] eqn:Hd.
  2:{ exists []. split; [|left; reflexivity].
      enter_try. step Hd.
      rewrite app_nil_r. reflexivity. }
  destruct (str_encode_utf8 rt text) as [body|] eqn:He.
  2:{ exists []. split; [|left; reflexivity].
      enter_try. step Hd. step He. rewrite app_nil_r. reflexivity. }
  destruct (Struct.pack_I (byteorder rt) (len body)) as [header|e|] eqn:Hp.
  2:{ exists []. split; [|left; reflexivity].
      enter_try. step Hd. step He. step Hp. apply Hfail. rewrite app_nil_r. reflexivity. }
  2:{ exists []. split; [|left; reflexivity].
      enter_try. step Hd. step He. step Hp. rewrite app_nil_r. reflexivity. }
  destruct (Socket.send s header) as [[k1|e|] s1] eqn:H1.
  2:{ exists [SysSend header (Raise e)]. split; [|right; exists text, body, header; auto].
      enter_try. step Hd. step He. step Hp. step_send Hs H1.
      apply Hfail. reflexivity. }
  2:{ exists [SysSend header OutOfFuel]. split; [|right; exists text, body, header; auto].
      enter_try. step Hd. step He. step Hp. step_send Hs H1.
      reflexivity. }
  destruct (Socket.send s1 body) as [[k2|e|] s2] eqn:H2.
  2:{ exists [SysSend header (Return k1); SysSend body (Raise e)].
      split; [|right; exists text, body, header; auto].
      enter_try. step Hd. step He. step Hp. step_send Hs H1. step_send Hs H2.
      apply Hfail. simpl. rewrite <- app_assoc. reflexivity. }
  2:{ exists [SysSend header (Return k1); SysSend body OutOfFuel].
      split; [|right; exists text, body, header; auto].
      enter_try. step Hd. step He. step Hp. step_send Hs H1. step_send Hs H2.
      rewrite <- app_assoc. reflexivity. }
  rewrite (send_try_sent rt mt payload message st s s1 s2 text body header k1 k2
             Hs Hd He Hp H1 H2).
  match goal with |- context [receive_message rt ?x] => set (st3 := x) end.
  destruct (reads_only_receive_message rt st3) as (evs & Hevs & Hrecv).
  exists ([SysSend header (Return k1); SysSend body (Return k2)] ++ evs).
  split.
  - rewrite Hevs. unfold st3. simpl. rewrite <- !app_assoc. reflexivity.
  - right. exists text, body, header. repeat split; auto. right.
    rewrite sends_of_app, (sends_of_recvs evs Hrecv). reflexivity.
Qed.

Section Sent.

Variables (rt : Runtime) (mt payload rid : pystr) (st : St) (s : Sock).
Variables (rid' : pystr) (st0 : St) (text : pystr) (body header : bytes).
Variables (k1 k2 : Z) (s1 s2 : Sock).

Hypothesis Hs : socket (self st) = Some s.
Hypothesis Hrid : request_id_or_default rid st = (Return rid', st0).
Hypothesis Hd :
  json_dumps rt (envelope mt payload rid' (client_id (self st))) = Some text.
Hypothesis He : str_encode_utf8 rt text = Some body.
Hypothesis Hp : Struct.pack_I (byteorder rt) (len body) = Return header.
Hypothesis H1 : Socket.send s header = (Return k1, s1).
Hypothesis H2 : Socket.send s1 body = (Return k2, s2).


End Sent.

(** ** Decimal numerals are read back *)

Lemma ord_inj (a b : ascii) : ord a = ord b -> a = b.
Proof.
  unfold ord. intros H. apply N2Z.inj in H.
  rewrite <- (ascii_N_embedding a), <- (ascii_N_embedding b), H. reflexivity.
Qed.

Lemma list_ascii_of_string_inj (a b : string) :
  list_ascii_of_string a = list_ascii_of_string b -> a = b.
Proof.
  intros H. rewrite <- (string_of_list_ascii_of_string a),
              <- (string_of_list_ascii_of_string b), H. reflexivity.
Qed.

Lemma str_inj (a b : string) : str a = str b -> a = b.
Proof.
  unfold str. intros H. apply list_ascii_of_string_inj.
  revert H. generalize (list_ascii_of_string a) (list_ascii_of_string b).
  induction l as [|x l IH]; intros [|y l'] H; simpl in *; try discriminate; auto.
  inversion H. f_equal; [apply ord_inj; assumption|apply IH; assumption].
Qed.

Lemma str_of_int_inj (m n : Z) : str_of_int m = str_of_int n -> m = n.
Proof.
  unfold str_of_int. intros H. apply str_inj in H.
  apply (f_equal NilEmpty.int_of_string) in H.
  rewrite !NilEmpty.isi in H. inversion H as [H'].
  rewrite <- (DecimalZ.of_to m), <- (DecimalZ.of_to n), H'. reflexivity.
Qed.

(** ** The client at work *)

Example init_default :
  fst (init None Demo.world) =
  Return {| socket_path := str "/tmp/phantom-vault-1000.sock";
            socket := None;
            client_id := str "test_client_1700000000" |}.
Proof. vm_compute. reflexivity. Qed.

Example connect_refused_keeps_the_socket_object :
  exists st',
    connect Demo.offline = (Return false, st') /\
    socket (self st') = Some Socket.fresh /\
    stdout (env st') = [MsgConnectFailed OSError].
Proof. eexists. repeat split. Qed.

Example pong_frame_bytes :
  firstn 12 (Demo.frame_of (Demo.bytes_of Demo.pong)) =
  [x52; x00; x00; x00; x7b; x22; x74; x79; x70; x65; x22; x3a].
Proof. vm_compute. reflexivity. Qed.

Example ping_pong :
  fst (send_message Demo.rt (str "PING") (str "ping") []
         (Demo.session [Arrive (Demo.frame_of (Demo.bytes_of Demo.pong))] []))
  = Return (Some Demo.pong).
Proof. vm_compute. reflexivity. Qed.

Example multibyte_payload_frame :
  sends_of
    (syscalls (env (snd (send_message Demo.rt (str "PING") [112; 233; 128512; 8364]
                           (str "r") (Demo.session [] [])))))
  = [ [x72; x00; x00; x00];
      Demo.bytes_of (envelope (str "PING") [112; 233; 128512; 8364] (str "r")
                       (str "test_client_1700000000")) ]
  /\ len (Demo.bytes_of (envelope (str "PING") [112; 233; 128512; 8364] (str "r")
                           (str "test_client_1700000000"))) = 114.
Proof. vm_compute. split; reflexivity. Qed.

(** * The claims *)

(** ** C1: framing round trip *)

(** The round trip of C1 where the code has it: the header of the frame
    arrives in one piece, the payload in any pieces, and more may follow. *)
Lemma read_frame_round_trip (rt : Runtime) (P extra : bytes) (header : bytes)
      (chunks : list bytes) (rest : list RecvEv) (st : St) (s : Sock) :
  socket (self st) = Some s ->
  connected s = true ->
  Struct.pack_I (byteorder rt) (len P) = Return header ->
  inbox s = deliver chunks ++ rest ->
  Forall (fun c => c <> []) chunks ->
  List.concat chunks = header ++ P ++ extra ->
  (4 <= List.length (hd [] chunks))%nat ->
  exists st' s' chunks',
    read_frame rt st = (Return (Frame P), st') /\
    socket (self st') = Some s' /\
    inbox s' = deliver chunks' ++ rest /\
    List.concat chunks' = extra.
Proof.
  intros Hs Hc Hp Hin Hne Hcat Hfirst.
  destruct (pack_I_inv _ _ _ Hp) as [Hlen Hun].
  destruct (read_frame_stream rt chunks rest st s header (P ++ extra) (len P))
    as (st' & s' & chunks' & Hrun & Hs' & Hin' & Hcat' & _); auto.
  { apply len_nonneg. }
  { right. rewrite len_app. pose proof (len_nonneg extra). lia. }
  assert (Hf : firstn (Z.to_nat (len P)) (P ++ extra) = P).
  { unfold len. rewrite Nat2Z.id, firstn_app, Nat.sub_diag, firstn_all. simpl.
    apply app_nil_r. }
  assert (Hk : skipn (Z.to_nat (len P)) (P ++ extra) = extra).
  { unfold len. rewrite Nat2Z.id, skipn_app, Nat.sub_diag, skipn_all. reflexivity. }
  rewrite Hf, Z.eqb_refl in Hrun. rewrite Hk in Hcat'.
  exists st', s', chunks'. auto.
Qed.

(** And where the code does not have it: whenever the first read gets
    fewer than 4 bytes, whatever follows, the frame is given up. *)
Lemma header_in_pieces_is_rejected (rt : Runtime) (st : St) (s : Sock)
      (chunk : bytes) (rest : list RecvEv) :
  socket (self st) = Some s ->
  connected s = true ->
  inbox s = Arrive chunk :: rest ->
  len chunk < 4 ->
  exists st',
    read_frame rt st = (Return (HeaderTruncated chunk), st') /\
    receive_message rt st = (Return None, st').
Proof.
  intros Hs Hc Hin Hlen.
  assert (Hrun : read_frame rt st =
                 (Return (HeaderTruncated chunk),
                  {| self := set_socket (self st) (Some (snd (Socket.recv s 4)));
                     env := log_sys (env st) (SysRecv 4 (Return chunk)) |})).
  { unfold read_frame. unfold bind at 1.
    rewrite (self_socket_recv_some 4 st s Hs).
    rewrite (recv_arrive s 4 chunk rest Hc Hin). cbn [fst snd].
    change (Z.to_nat 4) with 4%nat.
    rewrite firstn_all2 by (unfold len in *; lia).
    replace (len chunk =? 4) with false by (symmetry; apply Z.eqb_neq; lia).
    reflexivity. }
  eexists. split; [exact Hrun|].
  unfold receive_message. rewrite bind_self_socket, Hs.
  unfold try_except. unfold bind at 1. rewrite Hrun. reflexivity.
Qed.

(** C1, at an input where the code fails it.  The frame of the payload
    [Demo.bytes_of Demo.pong] (4-byte length header, then the payload) is
    decoded to that payload when it arrives in one piece.  When the same
    bytes arrive as a chunk of 2 bytes followed by the rest, the single
    [recv(4)] of line 82 gets 2 bytes, line 83 takes the header for
    truncated, and [receive_message] returns [None]: the payload is not
    reassembled although all its chunks have arrived. *)
Theorem split_header_is_rejected :
  fst (receive_message Demo.rt
         (Demo.session [Arrive (Demo.frame_of (Demo.bytes_of Demo.pong))] []))
  = Return (Some Demo.pong) /\
  fst (read_frame Demo.rt
         (Demo.session
            [Arrive (firstn 2 (Demo.frame_of (Demo.bytes_of Demo.pong)));
             Arrive (skipn 2 (Demo.frame_of (Demo.bytes_of Demo.pong)))] []))
  = Return (HeaderTruncated [x52; x00]) /\
  fst (receive_message Demo.rt
         (Demo.session
            [Arrive (firstn 2 (Demo.frame_of (Demo.bytes_of Demo.pong)));
             Arrive (skipn 2 (Demo.frame_of (Demo.bytes_of Demo.pong)))] []))
  = Return None.
Proof. vm_compute. repeat split. Qed.

(** ** C2: early close detection *)

(** A frame that is returned has the length its header declares. *)
Lemma frame_has_declared_length (rt : Runtime) (st st' : St) (message_data : bytes) :
  read_frame rt st = (Return (Frame message_data), st') ->
  exists length_data,
    len length_data = 4 /\
    Struct.unpack_I (byteorder rt) length_data = Return (len message_data).
Proof.
  unfold read_frame, bind.
  destruct (self_socket_recv 4 st) as [[d0|e|] st0]; try discriminate.
  destruct (len d0 =? 4) eqn:E4; simpl; [|discriminate].
  unfold lift. destruct (Struct.unpack_I (byteorder rt) d0) as [L|e|] eqn:Eu;
    try discriminate.
  destruct (recv_loop (Z.to_nat L) L [] st0) as [[md|e|] st2]; try discriminate.
  destruct (len md =? L) eqn:EL; simpl; [|discriminate].
  intros H. inversion H; subst. exists d0. apply Z.eqb_eq in E4, EL.
  rewrite EL. auto.
Qed.



(** ** C3: writing the frame *)




(** ** C4: no request/response correlation *)



(** ** C5: generated request ids *)

(** C5 does not hold as stated: two calls of one Session with the
    [request_id] omitted, the second at a later reading of the clock
    within the same millisecond.  Both envelopes carry
    [req_1700000000500]. *)
Lemma same_millisecond_same_request_id :
  exists st1 st2,
    send_message Demo.rt (str "PING") (str "ping") []
      (Demo.session [Arrive (Demo.frame_of (Demo.bytes_of Demo.pong));
                     Arrive (Demo.frame_of (Demo.bytes_of Demo.pong))] [])
    = (Return (Some Demo.pong), st1) /\
    send_message Demo.rt (str "PING") (str "ping") [] st1
    = (Return (Some Demo.pong), st2) /\
    PrimFloat.ltb (Demo.wall_clock 0) (Demo.wall_clock 1) = true /\
    sends_of (syscalls (env st2)) =
      [ Demo.header_of (Demo.bytes_of (Demo.ping (str "req_1700000000500")));
        Demo.bytes_of (Demo.ping (str "req_1700000000500"));
        Demo.header_of (Demo.bytes_of (Demo.ping (str "req_1700000000500")));
        Demo.bytes_of (Demo.ping (str "req_1700000000500")) ].
Proof.
  eexists _, _. split; [vm_compute; reflexivity|].
  split; [vm_compute; reflexivity|]. vm_compute. split; reflexivity.
Qed.

(** C5, amended.  With the [request_id] omitted the Session generates
    [req_] followed by the wall clock in whole milliseconds at the call,
    so the ids of two calls are distinct exactly when the two calls read
    different milliseconds. *)
Theorem generated_request_ids (st1 st2 : St) (ms1 ms2 : Z) :
  py_int (PrimFloat.mul (now st1) 1000) = Return ms1 ->
  py_int (PrimFloat.mul (now st2) 1000) = Return ms2 ->
  fst (request_id_or_default [] st1) = Return (str "req_" ++ str_of_int ms1) /\
  fst (request_id_or_default [] st2) = Return (str "req_" ++ str_of_int ms2) /\
  (str "req_" ++ str_of_int ms1 = str "req_" ++ str_of_int ms2 <-> ms1 = ms2).
Proof.
  intros E1 E2. unfold request_id_or_default, bind, time_time, lift, now in *.
  simpl. rewrite E1, E2. simpl. repeat split.
  - intros H. injection H as H. apply str_of_int_inj, H.
  - intros ->. reflexivity.
Qed.

Lemma generated_request_ids_witness :
  fst (request_id_or_default [] (Demo.session_at 1)) =
    Return (str "req_" ++ str_of_int 1700000000500) /\
  fst (request_id_or_default [] (Demo.session_at 2)) =
    Return (str "req_" ++ str_of_int 1700000001750) /\
  (str "req_" ++ str_of_int 1700000000500 = str "req_" ++ str_of_int 1700000001750
   <-> 1700000000500 = 1700000001750).
Proof.
  apply (generated_request_ids (Demo.session_at 1) (Demo.session_at 2)
           1700000000500 1700000001750);
    vm_compute; reflexivity.
Defined.

(** ** C6: header truncation *)

(** C6.  Header truncation: the frame decoder asks for exactly the 4
    bytes of the header, once; when the stream ends with fewer than 4
    bytes in all, it fails with [HeaderTruncated] (carrying what it got),
    and [receive_message] returns [None], not a decoded frame. *)
Theorem truncated_header_is_rejected (rt : Runtime) (chunks : list bytes)
        (st : St) (s : Sock) :
  socket (self st) = Some s ->
  connected s = true ->
  inbox s = deliver chunks ->
  len (List.concat chunks) < 4 ->
  exists d st',
    read_frame rt st = (Return (HeaderTruncated d), st') /\
    syscalls (env st') = syscalls (env st) ++ [SysRecv 4 (Return d)] /\
    len d < 4 /\
    d = hd [] chunks /\
    receive_message rt st = (Return None, st').
Proof.
  intros Hs Hc Hin Htot.
  assert (Hrecv : fst (Socket.recv s 4) = Return (hd [] chunks) /\
                  len (hd [] chunks) < 4).
  { destruct chunks as [|c0 cs].
    - unfold Socket.recv. rewrite Hc, Hin. simpl. split; [reflexivity|].
      unfold len. simpl. lia.
    - change (List.concat (c0 :: cs)) with (c0 ++ List.concat cs) in Htot.
      rewrite len_app in Htot. pose proof (len_nonneg (List.concat cs)).
      rewrite (recv_arrive s 4 c0 (deliver cs) Hc Hin). cbn [fst hd].
      change (Z.to_nat 4) with 4%nat.
      rewrite firstn_all2 by (unfold len in *; lia). split; [reflexivity|lia]. }
  destruct Hrecv as [Hr Hd].
  assert (Hrun : read_frame rt st =
                 (Return (HeaderTruncated (hd [] chunks)),
                  {| self := set_socket (self st) (Some (snd (Socket.recv s 4)));
                     env := log_sys (env st) (SysRecv 4 (Return (hd [] chunks))) |})).
  { unfold read_frame. unfold bind at 1.
    rewrite (self_socket_recv_some 4 st s Hs), Hr.
    replace (len (hd [] chunks) =? 4) with false by (symmetry; apply Z.eqb_neq; lia).
    reflexivity. }
  eexists _, _. split; [exact Hrun|]. repeat split; auto.
  unfold receive_message. rewrite bind_self_socket, Hs.
  unfold try_except. unfold bind at 1. rewrite Hrun. reflexivity.
Qed.

Lemma truncated_header_witness :
  exists d st',
    read_frame Demo.rt (Demo.session [Arrive [x05; x00]] []) =
      (Return (HeaderTruncated d), st') /\
    syscalls (env st') = [] ++ [SysRecv 4 (Return d)] /\
    len d < 4 /\
    d = [x05; x00] /\
    receive_message Demo.rt (Demo.session [Arrive [x05; x00]] []) = (Return None, st').
Proof.
  apply (truncated_header_is_rejected Demo.rt [[x05; x00]]
           (Demo.session [Arrive [x05; x00]] [])
           {| connected := true; inbox := [Arrive [x05; x00]]; sendq := [] |});
    reflexivity.
Defined.

(** ** C7: error containment *)




(** ** C8: length accuracy *)

(** C8.  Length accuracy: whatever [send_message] hands to [send] is the
    4-byte header and then the body, where the body is the UTF-8 encoding
    of the JSON text of the envelope and the header unpacks to exactly the
    number of bytes of the body, whatever characters the payload holds
    (or the header alone, when the second [send] is not reached). *)
Theorem length_header_accurate (rt : Runtime) (mt payload rid : pystr) (st : St) :
  exists new,
    syscalls (env (snd (send_message rt mt payload rid st))) = syscalls (env st) ++ new /\
    (sends_of new = [] \/
     exists rid' text body header,
       fst (request_id_or_default rid st) = Return rid' /\
       json_dumps rt (envelope mt payload rid' (client_id (self st))) = Some text /\
       str_encode_utf8 rt text = Some body /\
       List.length header = 4%nat /\
       Struct.unpack_I (byteorder rt) header = Return (len body) /\
       (sends_of new = [header] \/ sends_of new = [header; body])).
Proof.
  rewrite send_message_unfold.
  destruct (socket (self st)) as [s|] eqn:Hs.
  2:{ exists []. simpl. rewrite app_nil_r. auto. }
  destruct (request_id_or_default_frame rid st) as (Hself & _ & Hsys).
  destruct (request_id_or_default rid st) as [[rid'|e|] st0]; simpl in Hself, Hsys.
  - destruct (send_try_trace rt mt payload
                (envelope mt payload rid' (client_id (self st0))) st0 s)
      as (new & Hnew & Hsent).
    { rewrite Hself. exact Hs. }
    exists new. rewrite Hnew, Hsys. split; [reflexivity|].
    destruct Hsent as [Hnone|(text & body & header & Hd & He & Hp & Hsent)]; [left; exact Hnone|].
    right. destruct (pack_I_inv _ _ _ Hp) as [Hl Hu].
    exists rid', text, body, header. rewrite <- Hself. auto 10.
  - exists []. simpl. rewrite app_nil_r. auto.
  - exists []. simpl. rewrite app_nil_r. auto.
Qed.

(** ** C9: disconnect is idempotent *)

(** C9.  Disconnect idempotence: [disconnect] closes the connection of a
    connected Session and leaves it without a socket; on a Session without
    a socket it changes nothing and raises nothing; so a second
    [disconnect] leaves the state the first one made. *)
Theorem disconnect_idempotent (st : St) :
  disconnect (snd (disconnect st)) = (Return tt, snd (disconnect st)) /\
  fst (disconnect st) = Return tt /\
  socket (self (snd (disconnect st))) = None /\
  match socket (self st) with
  | Some _ =>
      syscalls (env (snd (disconnect st))) = syscalls (env st) ++ [SysClose]
  | None => snd (disconnect st) = st
  end.
Proof.
  unfold disconnect. rewrite !bind_self_socket.
  destruct (socket (self st)) as [s|] eqn:Hs.
  - unfold bind, self_socket_close, assign_socket, print, ret. rewrite Hs. simpl. auto.
  - simpl. rewrite Hs. auto.
Qed.

(** ** C10: a request on a disconnected Session *)

(** C10.  Disconnected-request atomicity: when the socket is [None],
    [send_message] returns [None] at once: no socket call is made, the
    clock is not read, the Session ([socket_path], [socket], [client_id])
    is unchanged, and one line, "Not connected", is printed;
    [receive_message] returns [None] and changes nothing at all. *)
Theorem disconnected_request_does_nothing
        (rt : Runtime) (mt payload rid : pystr) (st : St) :
  socket (self st) = None ->
  exists st',
    send_message rt mt payload rid st = (Return None, st') /\
    self st' = self st /\
    syscalls (env st') = syscalls (env st) /\
    ticks (env st') = ticks (env st) /\
    stdout (env st') = stdout (env st) ++ [MsgNotConnected] /\
    receive_message rt st = (Return None, st).
Proof.
  intros Hs. rewrite send_message_unfold, Hs. eexists. split; [reflexivity|].
  simpl. repeat split. unfold receive_message. rewrite bind_self_socket, Hs. reflexivity.
Qed.

Lemma disconnected_request_witness :
  exists st',
    send_message Demo.rt (str "PING") (str "ping") (str "req_7") Demo.offline
      = (Return None, st') /\
    self st' = self Demo.offline /\
    syscalls (env st') = syscalls (env Demo.offline) /\
    ticks (env st') = ticks (env Demo.offline) /\
    stdout (env st') = stdout (env Demo.offline) ++ [MsgNotConnected] /\
    receive_message Demo.rt Demo.offline = (Return None, Demo.offline).
Proof.
  apply (disconnected_request_does_nothing Demo.rt (str "PING") (str "ping")
           (str "req_7") Demo.offline).
  reflexivity.
Defined.

(** * More of the client *)

(** ** What a request leaves of the session *)

Lemma during_requests_refl (st : St) : during_requests st st.
Proof.
  unfold during_requests. repeat split; auto.
  exists []. rewrite app_nil_r. auto.
Qed.

Lemma during_requests_trans (a b c : St) :
  during_requests a b -> during_requests b c -> during_requests a c.
Proof.
  intros (P1 & C1 & K1 & U1 & L1 & S1 & T1 & e1 & E1 & F1)
         (P2 & C2 & K2 & U2 & L2 & S2 & T2 & e2 & E2 & F2).
  unfold during_requests. repeat split; try congruence; auto; try lia.
  exists (e1 ++ e2). rewrite E2, E1, app_assoc, forallb_app, F1, F2. auto.
Qed.

Lemma during_requests_preorder : preorder during_requests.
Proof. split; [exact during_requests_refl|exact during_requests_trans]. Qed.

(** A step that changes the environment by one socket call that is not a
    close, or not at all, and keeps a socket where there was one. *)
Ltac during_prim :=
  intros st; unfold during_requests; simpl;
  repeat split; auto; try discriminate;
  first [ exists []; rewrite app_nil_r; split; reflexivity
        | eexists [_]; split; reflexivity ].

Lemma during_print (l : Line) : respects during_requests (print l).
Proof. during_prim. Qed.

Lemma during_time_time : respects during_requests time_time.
Proof. during_prim. Qed.

Lemma during_self_client_id : respects during_requests self_client_id.
Proof. during_prim. Qed.

Lemma during_self_socket_path : respects during_requests self_socket_path.
Proof. during_prim. Qed.

Lemma during_assign_socket (s : Sock) :
  respects during_requests (assign_socket (Some s)).
Proof. during_prim. Qed.

Lemma during_connect (path : pystr) :
  respects during_requests (self_socket_connect path).
Proof.
  intros st. unfold self_socket_connect.
  destruct (socket (self st)) eqn:E; [|apply during_requests_refl].
  destruct (listening (env st) path); unfold during_requests; simpl;
    repeat split; auto; try discriminate; eexists [_]; split; reflexivity.
Qed.

Lemma during_send (data : bytes) : respects during_requests (self_socket_send data).
Proof.
  intros st. unfold self_socket_send.
  destruct (socket (self st)) eqn:E; [|apply during_requests_refl].
  destruct (Socket.send s data). unfold during_requests; simpl.
  repeat split; auto; try discriminate. eexists [_]; split; reflexivity.
Qed.

Lemma during_recv (n : Z) : respects during_requests (self_socket_recv n).
Proof.
  intros st. unfold self_socket_recv.
  destruct (socket (self st)) eqn:E; [|apply during_requests_refl].
  destruct (Socket.recv s n). unfold during_requests; simpl.
  repeat split; auto; try discriminate. eexists [_]; split; reflexivity.
Qed.

Ltac during_step :=
  first
    [ apply during_print | apply during_time_time | apply during_self_client_id
    | apply during_self_socket_path | apply during_assign_socket
    | apply during_connect | apply during_send | apply during_recv
    | apply respects_recv_loop; [assumption|apply during_recv]
    | respects_step | case_split | progress cbv zeta ].

Lemma during_request_id (rid : pystr) :
  respects during_requests (request_id_or_default rid).
Proof.
  pose proof during_requests_preorder as HR.
  unfold request_id_or_default. destruct rid; repeat during_step.
Qed.

Lemma during_receive_message (rt : Runtime) :
  respects during_requests (receive_message rt).
Proof.
  pose proof during_requests_preorder as HR.
  unfold receive_message. repeat during_step.
Qed.

Lemma during_send_message (rt : Runtime) (mt payload rid : pystr) :
  respects during_requests (send_message rt mt payload rid).
Proof.
  pose proof during_requests_preorder as HR.
  unfold send_message.
  repeat first [apply during_request_id | apply during_receive_message | during_step].
Qed.

Lemma during_connect_method : respects during_requests connect.
Proof.
  pose proof during_requests_preorder as HR.
  unfold connect. repeat during_step.
Qed.

(** X1.  A request never tears the session down: whatever happens during
    [send_message], the client keeps its socket path and its client id, a
    client that had a socket object still has one, and no socket is
    closed. *)
Theorem send_message_keeps_session (rt : Runtime) (mt payload rid : pystr) (st : St) :
  socket_path (self (snd (send_message rt mt payload rid st))) = socket_path (self st) /\
  client_id (self (snd (send_message rt mt payload rid st))) = client_id (self st) /\
  (socket (self st) <> None ->
   socket (self (snd (send_message rt mt payload rid st))) <> None) /\
  exists evs,
    syscalls (env (snd (send_message rt mt payload rid st))) = syscalls (env st) ++ evs /\
    forallb (fun e => negb (is_close e)) evs = true.
Proof.
  destruct (during_send_message rt mt payload rid st)
    as (P & C & _ & _ & _ & S & _ & E).
  auto.
Qed.

(** ** Failures while sending *)

Lemma send_message_connected (rt : Runtime) (mt payload rid rid' : pystr)
      (st st0 : St) (s : Sock) :
  socket (self st) = Some s ->
  request_id_or_default rid st = (Return rid', st0) ->
  send_message rt mt payload rid st =
    send_try rt mt payload (envelope mt payload rid' (client_id (self st))) st0 /\
  self st0 = self st /\
  stdout (env st0) = stdout (env st) /\
  syscalls (env st0) = syscalls (env st).
Proof.
  intros Hs Hrid. rewrite send_message_unfold, Hs, Hrid.
  destruct (request_id_or_default_frame rid st) as (Hself & Hout & Hsys).
  rewrite Hrid in Hself, Hout, Hsys. simpl in *. rewrite Hself. auto.
Qed.

(** X2.  When the envelope cannot be serialised or encoded, or its length
    cannot be packed (lines 56-60), [send_message] returns [None] having
    printed one failure line and made no socket call; the client object is
    as before. *)
Theorem unserialisable_request_sends_nothing
        (rt : Runtime) (mt payload rid rid' : pystr) (st st0 : St) (s : Sock) :
  socket (self st) = Some s ->
  request_id_or_default rid st = (Return rid', st0) ->
  json_dumps rt (envelope mt payload rid' (client_id (self st))) = None
  \/ (exists text,
        json_dumps rt (envelope mt payload rid' (client_id (self st))) = Some text /\
        str_encode_utf8 rt text = None)
  \/ (exists text body e,
        json_dumps rt (envelope mt payload rid' (client_id (self st))) = Some text /\
        str_encode_utf8 rt text = Some body /\
        Struct.pack_I (byteorder rt) (len body) = Raise e) ->
  exists e st',
    send_message rt mt payload rid st = (Return None, st') /\
    self st' = self st /\
    stdout (env st') = stdout (env st) ++ [MsgSendFailed e] /\
    syscalls (env st') = syscalls (env st).
Proof.
  intros Hs Hrid Hfail.
  destruct (send_message_connected rt mt payload rid rid' st st0 s Hs Hrid)
    as (-> & Hself & Hout & Hsys).
  destruct Hfail as [Hd|[(text & Hd & He)|(text & body & e & Hd & He & Hp)]].
  - exists TypeError. eexists. enter_try. step Hd.
    split; [reflexivity|]. simpl. rewrite Hself, Hout, Hsys. auto.
  - exists ValueError. eexists. enter_try. step Hd. step He.
    split; [reflexivity|]. simpl. rewrite Hself, Hout, Hsys. auto.
  - pose proof (pack_I_ok (byteorder rt) (len body)) as Hok. rewrite Hp in Hok.
    simpl in Hok.
    exists e. eexists. enter_try. step Hd. step He. step Hp. rewrite Hok.
    split; [reflexivity|]. simpl. rewrite Hself, Hout, Hsys. auto.
Qed.

Lemma unserialisable_request_witness :
  exists e st',
    send_message Trial.strict (str "PING") (str "ping") (str "req_7")
      (Demo.session [] []) = (Return None, st') /\
    self st' = self (Demo.session [] []) /\
    stdout (env st') = stdout (env (Demo.session [] [])) ++ [MsgSendFailed e] /\
    syscalls (env st') = syscalls (env (Demo.session [] [])).
Proof.
  apply (unserialisable_request_sends_nothing Trial.strict (str "PING") (str "ping")
           (str "req_7") (str "req_7") (Demo.session [] []) (Demo.session [] [])
           {| connected := true; inbox := []; sendq := [] |}).
  - reflexivity.
  - reflexivity.
  - left. reflexivity.
Defined.

(** X3.  When a [send] raises an error the request ends there: [None] is
    returned, the failure is printed, and the socket calls made are the
    send of the header alone, or the send of the header and the failed
    send of the body; nothing is read. *)
Theorem failed_send_aborts_request
        (rt : Runtime) (mt payload rid rid' : pystr) (st st0 : St) (s : Sock)
        (text : pystr) (body header : bytes) (e : Exn) :
  socket (self st) = Some s ->
  request_id_or_default rid st = (Return rid', st0) ->
  json_dumps rt (envelope mt payload rid' (client_id (self st))) = Some text ->
  str_encode_utf8 rt text = Some body ->
  Struct.pack_I (byteorder rt) (len body) = Return header ->
  is_Exception e = true ->
  (exists s1, Socket.send s header = (Raise e, s1))
  \/ (exists k s1 s2,
        Socket.send s header = (Return k, s1) /\
        Socket.send s1 body = (Raise e, s2)) ->
  exists st' new,
    send_message rt mt payload rid st = (Return None, st') /\
    stdout (env st') = stdout (env st) ++ [MsgSendFailed e] /\
    syscalls (env st') = syscalls (env st) ++ new /\
    (new = [SysSend header (Raise e)]
     \/ exists k, new = [SysSend header (Return k); SysSend body (Raise e)]).
Proof.
  intros Hs Hrid Hd He Hp Hexn Hfail.
  destruct (send_message_connected rt mt payload rid rid' st st0 s Hs Hrid)
    as (-> & Hself & Hout & Hsys).
  assert (Hs0 : socket (self st0) = Some s) by (rewrite Hself; exact Hs).
  destruct Hfail as [(s1 & H1)|(k & s1 & s2 & H1 & H2)].
  - eexists _, [SysSend header (Raise e)].
    enter_try. step Hd. step He. step Hp. step_send Hs0 H1. rewrite Hexn.
    split; [reflexivity|]. simpl. rewrite Hout, Hsys. auto.
  - eexists _, [SysSend header (Return k); SysSend body (Raise e)].
    enter_try. step Hd. step He. step Hp. step_send Hs0 H1. step_send Hs0 H2.
    rewrite Hexn. split; [reflexivity|]. simpl.
    rewrite Hout, Hsys, <- app_assoc. simpl. eauto.
Qed.

Lemma failed_send_witness :
  exists st' new,
    send_message Demo.rt (str "PING") (str "ping") (str "req_7")
      (Demo.session [] [SendRaise OSError]) = (Return None, st') /\
    stdout (env st') =
      stdout (env (Demo.session [] [SendRaise OSError])) ++ [MsgSendFailed OSError] /\
    syscalls (env st') = syscalls (env (Demo.session [] [SendRaise OSError])) ++ new /\
    (new = [SysSend (Demo.header_of (Demo.bytes_of (Demo.ping (str "req_7"))))
              (Raise OSError)]
     \/ exists k,
         new = [SysSend (Demo.header_of (Demo.bytes_of (Demo.ping (str "req_7"))))
                  (Return k);
                SysSend (Demo.bytes_of (Demo.ping (str "req_7"))) (Raise OSError)]).
Proof.
  apply (failed_send_aborts_request Demo.rt (str "PING") (str "ping")
           (str "req_7") (str "req_7")
           (Demo.session [] [SendRaise OSError]) (Demo.session [] [SendRaise OSError])
           {| connected := true; inbox := []; sendq := [SendRaise OSError] |}
           (Demo.text_of (Demo.ping (str "req_7")))
           (Demo.bytes_of (Demo.ping (str "req_7")))
           (Demo.header_of (Demo.bytes_of (Demo.ping (str "req_7"))))
           OSError).
  - reflexivity.
  - reflexivity.
  - vm_compute. reflexivity.
  - vm_compute. reflexivity.
  - vm_compute. reflexivity.
  - reflexivity.
  - left. eexists. vm_compute. reflexivity.
Defined.



(** ** What is returned *)

Lemma getitem_inv (v : pyval) (key : pystr) (x : pyval) :
  getitem v key = Return x -> exists d, v = PDict d /\ dict_get d key = Some x.
Proof.
  destruct v; simpl; try discriminate.
  destruct (dict_get d key) eqn:E; [|discriminate].
  intros H. inversion H; subst. eauto.
Qed.

Lemma slice_50_inv (v x : pyval) :
  slice_50 v = Return x -> (exists s, v = PStr s) \/ (exists l, v = PList l).
Proof. destruct v; simpl; try discriminate; eauto. Qed.

(** What [receive_message] makes of a frame it has read. *)
Lemma receive_message_of_frame (rt : Runtime) (st st1 : St) (s : Sock) (P : bytes) :
  socket (self st) = Some s ->
  read_frame rt st = (Return (Frame P), st1) ->
  receive_message rt st =
  match bytes_decode_utf8 rt P with
  | None => (Return None, {| self := self st1; env := log_line (env st1) (MsgReceiveFailed ValueError) |})
  | Some text =>
      match json_loads rt text with
      | None => (Return None, {| self := self st1; env := log_line (env st1) (MsgReceiveFailed ValueError) |})
      | Some message =>
          match getitem message (str "type"), getitem message (str "payload") with
          | Return ty, Return payload =>
              match slice_50 payload, py_len payload with
              | Return payload50, Return n =>
                  (Return (Some message),
                   {| self := self st1;
                      env := log_line (env st1) (MsgReceived ty payload50 (50 <? n)) |})
              | _, _ =>
                  (Return None, {| self := self st1; env := log_line (env st1) (MsgReceiveFailed TypeError) |})
              end
          | Return _, Raise e | Raise e, _ =>
              (Return None, {| self := self st1; env := log_line (env st1) (MsgReceiveFailed e) |})
          | _, _ => (Return None, st1)
          end
      end
  end.
Proof.
  intros Hs Hrun. unfold receive_message. rewrite bind_self_socket, Hs.
  unfold try_except. unfold bind at 1. rewrite Hrun.
  unfold bind, of_option, lift, ret, print.
  destruct (bytes_decode_utf8 rt P) as [text|]; simpl; [|reflexivity].
  destruct (json_loads rt text) as [message|]; simpl; [|reflexivity].
  pose proof (getitem_ok message (str "type")) as H1.
  destruct (getitem message (str "type")) as [ty|e|]; simpl in *;
    [| rewrite H1; reflexivity | contradiction].
  pose proof (getitem_ok message (str "payload")) as H2.
  destruct (getitem message (str "payload")) as [pl|e|]; simpl in *;
    [| rewrite H2; reflexivity | contradiction].
  destruct pl; simpl; reflexivity.
Qed.

Lemma read_frame_not_frame (rt : Runtime) (st : St) (s : Sock) (m : pyval) (st' : St) :
  socket (self st) = Some s ->
  receive_message rt st = (Return (Some m), st') ->
  exists P st1, read_frame rt st = (Return (Frame P), st1).
Proof.
  intros Hs. unfold receive_message. rewrite bind_self_socket, Hs.
  unfold try_except. unfold bind at 1.
  destruct (read_frame rt st) as [[[d|d|d L]|e|] st1]; simpl; try discriminate; eauto.
  destruct (is_Exception e); discriminate.
Qed.

Lemma receive_message_some (rt : Runtime) (st st' : St) (m : pyval) :
  receive_message rt st = (Return (Some m), st') -> well_formed m.
Proof.
  intros H.
  destruct (socket (self st)) as [s|] eqn:Hs.
  2:{ unfold receive_message in H. rewrite bind_self_socket, Hs in H. discriminate. }
  destruct (read_frame_not_frame rt st s m st' Hs H) as (P & st1 & Hrun).
  rewrite (receive_message_of_frame rt st st1 s P Hs Hrun) in H.
  destruct (bytes_decode_utf8 rt P) as [text|]; [|discriminate].
  destruct (json_loads rt text) as [message|]; [|discriminate].
  destruct (getitem message (str "type")) as [ty|e|] eqn:E1;
    try discriminate; try (destruct (getitem message (str "payload")); discriminate).
  destruct (getitem message (str "payload")) as [pl|e|] eqn:E2; try discriminate.
  destruct (slice_50 pl) as [p50|e|] eqn:E3;
    try discriminate; try (destruct (py_len pl); discriminate).
  destruct (py_len pl) as [n|e|]; try discriminate.
  inversion H; subst.
  destruct (getitem_inv _ _ _ E1) as (d & -> & Hty).
  destruct (getitem_inv _ _ _ E2) as (d' & Hd' & Hpl). inversion Hd'; subst d'.
  exists d, ty, pl. repeat split; auto. eapply slice_50_inv; eauto.
Qed.

Lemma send_try_some (rt : Runtime) (mt payload : pystr) (message : pyval)
      (st st' : St) (s : Sock) (m : pyval) :
  socket (self st) = Some s ->
  send_try rt mt payload message st = (Return (Some m), st') ->
  exists st3, receive_message rt st3 = (Return (Some m), st').
Proof.
  intros Hs.
  destruct (json_dumps rt message) as [text|] eqn:Hd.
  2:{ enter_try. step Hd. discriminate. }
  destruct (str_encode_utf8 rt text) as [body|] eqn:He.
  2:{ enter_try. step Hd. step He. discriminate. }
  destruct (Struct.pack_I (byteorder rt) (len body)) as [header|e|] eqn:Hp.
  2:{ enter_try. step Hd. step He. step Hp. destruct (is_Exception e); discriminate. }
  2:{ enter_try. step Hd. step He. step Hp. discriminate. }
  destruct (Socket.send s header) as [[k1|e|] s1] eqn:H1.
  2:{ enter_try. step Hd. step He. step Hp. step_send Hs H1.
      destruct (is_Exception e); discriminate. }
  2:{ enter_try. step Hd. step He. step Hp. step_send Hs H1. discriminate. }
  destruct (Socket.send s1 body) as [[k2|e|] s2] eqn:H2.
  2:{ enter_try. step Hd. step He. step Hp. step_send Hs H1. step_send Hs H2.
      destruct (is_Exception e); discriminate. }
  2:{ enter_try. step Hd. step He. step Hp. step_send Hs H1. step_send Hs H2.
      discriminate. }
  rewrite (send_try_sent rt mt payload message st s s1 s2 text body header k1 k2
             Hs Hd He Hp H1 H2).
  eauto.
Qed.

Lemma send_message_some (rt : Runtime) (mt payload rid : pystr) (st st' : St) (m : pyval) :
  send_message rt mt payload rid st = (Return (Some m), st') ->
  well_formed m.
Proof.
  rewrite send_message_unfold.
  destruct (socket (self st)) as [s|] eqn:Hs; [|discriminate].
  destruct (request_id_or_default_frame rid st) as (Hself & _).
  destruct (request_id_or_default rid st) as [[rid'|e|] st0]; try discriminate.
  simpl in Hself. intros Hrun.
  assert (Hs0 : socket (self st0) = Some s) by (rewrite Hself; exact Hs).
  destruct (send_try_some rt mt payload _ st0 st' s m Hs0 Hrun) as (st3 & H3).
  eapply receive_message_some; eauto.
Qed.

(** X5.  What [send_message] returns, when not [None], is a dict with a
    type and a payload that is a string or a list. *)
Theorem returned_message_is_well_formed
        (rt : Runtime) (mt payload rid : pystr) (st : St) (m : pyval) :
  fst (send_message rt mt payload rid st) = Return (Some m) ->
  well_formed m.
Proof.
  destruct (send_message rt mt payload rid st) as [o st'] eqn:Hrun.
  simpl. intros ->. eapply send_message_some; eauto.
Qed.

Lemma returned_message_witness : well_formed Demo.pong.
Proof.
  apply (returned_message_is_well_formed Demo.rt (str "PING") (str "ping") (str "req_7")
           (Demo.session [Arrive (Demo.frame_of (Demo.bytes_of Demo.pong))] [])
           Demo.pong).
  vm_compute. reflexivity.
Defined.



(** ** Frames, connections and identifiers *)

(** X7.  The pieces the body arrives in do not matter: when the first chunk
    holds the header, [receive_message] returns what it returns on the
    frame in one piece, consumes exactly the frame, and leaves what
    follows it in the socket. *)
Theorem chunking_does_not_matter
        (rt : Runtime) (P extra header : bytes) (chunks : list bytes)
        (rest : list RecvEv) (st : St) (s : Sock) :
  socket (self st) = Some s ->
  connected s = true ->
  Struct.pack_I (byteorder rt) (len P) = Return header ->
  inbox s = deliver chunks ++ rest ->
  Forall (fun c => c <> []) chunks ->
  List.concat chunks = header ++ P ++ extra ->
  (4 <= List.length (hd [] chunks))%nat ->
  fst (receive_message rt st) = next_reply rt [Arrive (header ++ P)] /\
  exists s' chunks',
    socket (self (snd (receive_message rt st))) = Some s' /\
    inbox s' = deliver chunks' ++ rest /\
    List.concat chunks' = extra.
Proof.
  intros Hs Hc Hp Hin Hne Hcat Hfirst.
  destruct (pack_I_inv _ _ _ Hp) as [Hlen _].
  destruct (read_frame_round_trip rt P extra header chunks rest st s
              Hs Hc Hp Hin Hne Hcat Hfirst)
    as (st1 & s1 & chunks1 & Hrun & Hs1 & Hin1 & Hcat1).
  assert (Hwhole : header ++ P <> []).
  { destruct header; [discriminate|discriminate]. }
  destruct (read_frame_round_trip rt P [] header [header ++ P] []
              (reader [Arrive (header ++ P)])
              {| connected := true; inbox := [Arrive (header ++ P)]; sendq := [] |})
    as (st2 & s2 & chunks2 & Hrun2 & _); try reflexivity.
  { exact Hp. }
  { repeat constructor. exact Hwhole. }
  { simpl. rewrite !app_nil_r. reflexivity. }
  { simpl. rewrite length_app. lia. }
  unfold next_reply.
  rewrite (receive_message_of_frame rt st st1 s P Hs Hrun).
  rewrite (receive_message_of_frame rt (reader [Arrive (header ++ P)]) st2
             {| connected := true; inbox := [Arrive (header ++ P)]; sendq := [] |}
             P eq_refl Hrun2).
  assert (Hsock : forall (o : Outcome (option pyval)) l,
             socket (self (snd (o, {| self := self st1; env := l |}))) = Some s1)
    by (intros; exact Hs1).
  split.
  - destruct (bytes_decode_utf8 rt P) as [text|]; [|reflexivity].
    destruct (json_loads rt text) as [message|]; [|reflexivity].
    destruct (getitem message (str "type")) as [ty|e|];
      destruct (getitem message (str "payload")) as [pl|e'|]; try reflexivity.
    destruct (slice_50 pl); destruct (py_len pl); reflexivity.
  - exists s1, chunks1. split; [|auto].
    destruct (bytes_decode_utf8 rt P) as [text|]; [|exact Hs1].
    destruct (json_loads rt text) as [message|]; [|exact Hs1].
    destruct (getitem message (str "type")) as [ty|e|];
      destruct (getitem message (str "payload")) as [pl|e'|]; try exact Hs1.
    destruct (slice_50 pl); destruct (py_len pl); exact Hs1.
Qed.

Lemma chunking_witness :
  fst (receive_message Demo.rt
         (Demo.session
            (deliver [ Demo.header_of (Demo.bytes_of Demo.pong)
                         ++ firstn 10 (Demo.bytes_of Demo.pong);
                       skipn 10 (Demo.bytes_of Demo.pong) ++ [x2a] ]) []))
  = next_reply Demo.rt
      [Arrive (Demo.header_of (Demo.bytes_of Demo.pong) ++ Demo.bytes_of Demo.pong)] /\
  exists s' chunks',
    socket (self (snd (receive_message Demo.rt
         (Demo.session
            (deliver [ Demo.header_of (Demo.bytes_of Demo.pong)
                         ++ firstn 10 (Demo.bytes_of Demo.pong);
                       skipn 10 (Demo.bytes_of Demo.pong) ++ [x2a] ]) []))))
    = Some s' /\
    inbox s' = deliver chunks' ++ [] /\
    List.concat chunks' = [x2a].
Proof.
  apply (chunking_does_not_matter Demo.rt (Demo.bytes_of Demo.pong) [x2a]
           (Demo.header_of (Demo.bytes_of Demo.pong))
           [ Demo.header_of (Demo.bytes_of Demo.pong)
               ++ firstn 10 (Demo.bytes_of Demo.pong);
             skipn 10 (Demo.bytes_of Demo.pong) ++ [x2a] ]
           []
           (Demo.session
              (deliver [ Demo.header_of (Demo.bytes_of Demo.pong)
                           ++ firstn 10 (Demo.bytes_of Demo.pong);
                         skipn 10 (Demo.bytes_of Demo.pong) ++ [x2a] ]) [])
           {| connected := true;
              inbox := deliver [ Demo.header_of (Demo.bytes_of Demo.pong)
                                   ++ firstn 10 (Demo.bytes_of Demo.pong);
                                 skipn 10 (Demo.bytes_of Demo.pong) ++ [x2a] ];
              sendq := [] |}).
  - reflexivity.
  - reflexivity.
  - vm_compute. reflexivity.
  - cbn [inbox]. rewrite app_nil_r. reflexivity.
  - repeat apply Forall_cons; try apply Forall_nil; vm_compute; discriminate.
  - vm_compute. reflexivity.
  - vm_compute. lia.
Defined.

(** X8.  A frame of length zero is read by the one [recv(4)]: the body
    loop makes no [recv], and what came with the header stays in the
    socket. *)
Theorem empty_frame_reads_header_only
        (rt : Runtime) (st : St) (s : Sock) (header more : bytes)
        (rest : list RecvEv) :
  socket (self st) = Some s ->
  connected s = true ->
  inbox s = Arrive (header ++ more) :: rest ->
  List.length header = 4%nat ->
  Struct.unpack_I (byteorder rt) header = Return 0 ->
  exists st' s',
    read_frame rt st = (Return (Frame []), st') /\
    syscalls (env st') = syscalls (env st) ++ [SysRecv 4 (Return header)] /\
    socket (self st') = Some s' /\
    inbox s' = match more with
               | [] => rest
               | _ :: _ => Arrive more :: rest
               end.
Proof.
  intros Hs Hc Hin Hlen Hun.
  unfold read_frame. unfold bind at 1.
  rewrite (self_socket_recv_some 4 st s Hs).
  rewrite (recv_arrive s 4 (header ++ more) rest Hc Hin).
  change (Z.to_nat 4) with 4%nat. cbn [fst snd].
  rewrite firstn_app, skipn_app, Hlen, Nat.sub_diag.
  rewrite (firstn_all2 header) by lia. rewrite (skipn_all2 header) by lia.
  rewrite firstn_O, skipn_O, app_nil_r. cbn [app].
  replace (len header =? 4) with true
    by (symmetry; apply Z.eqb_eq; unfold len; rewrite Hlen; reflexivity).
  cbn [negb]. unfold bind at 1. rewrite Hun. unfold lift at 1.
  unfold bind at 1. rewrite recv_loop_done by (unfold len; simpl; lia).
  unfold ret at 1. cbn [negb len List.length Z.of_nat Z.eqb].
  eexists _, _. split; [reflexivity|]. simpl. repeat split.
  destruct more; reflexivity.
Qed.

Lemma empty_frame_witness :
  exists st' s',
    read_frame Demo.rt (Demo.session [Arrive ([x00; x00; x00; x00] ++ [])] [])
    = (Return (Frame []), st') /\
    syscalls (env st') =
      syscalls (env (Demo.session [Arrive ([x00; x00; x00; x00] ++ [])] []))
        ++ [SysRecv 4 (Return [x00; x00; x00; x00])] /\
    socket (self st') = Some s' /\
    inbox s' = [].
Proof.
  apply (empty_frame_reads_header_only Demo.rt
           (Demo.session [Arrive ([x00; x00; x00; x00] ++ [])] [])
           {| connected := true; inbox := [Arrive ([x00; x00; x00; x00] ++ [])];
              sendq := [] |}
           [x00; x00; x00; x00] [] []).
  - reflexivity.
  - reflexivity.
  - reflexivity.
  - reflexivity.
  - vm_compute. reflexivity.
Defined.

Lemma connect_outcome (st : St) :
  connect st =
  match listening (env st) (socket_path (self st)) with
  | Some s =>
      (Return true,
       {| self := set_socket (self st) (Some s);
          env := log_line (log_sys (env st) (SysConnect (socket_path (self st)) true))
                   (MsgConnected (socket_path (self st))) |})
  | None =>
      (Return false,
       {| self := set_socket (self st) (Some Socket.fresh);
          env := log_line (log_sys (env st) (SysConnect (socket_path (self st)) false))
                   (MsgConnectFailed OSError) |})
  end.
Proof.
  destruct st as [[p so cid] w]. unfold connect, try_except, bind. simpl.
  unfold self_socket_connect. simpl.
  destruct (listening w p); reflexivity.
Qed.

(** X9.  After a connection that was refused the client holds a socket
    object that is not connected: a request does not print the line of
    line 44, it fails in [send], returns [None] and reads nothing. *)
Theorem request_after_refused_connect
        (rt : Runtime) (mt payload rid : pystr) (st : St) :
  listening (env st) (socket_path (self st)) = None ->
  rid <> [] ->
  exists st1 st2 e new,
    connect st = (Return false, st1) /\
    socket (self st1) = Some Socket.fresh /\
    send_message rt mt payload rid st1 = (Return None, st2) /\
    stdout (env st2) = stdout (env st) ++ [MsgConnectFailed OSError; MsgSendFailed e] /\
    syscalls (env st2) =
      syscalls (env st) ++ SysConnect (socket_path (self st)) false :: new /\
    forallb (fun ev => negb (is_recv ev)) new = true.
Proof.
  intros Hl Hrid. rewrite connect_outcome, Hl.
  set (st1 := {| self := _; env := _ |}).
  assert (Hreq : request_id_or_default rid st1 = (Return rid, st1))
    by (destruct rid; [congruence|reflexivity]).
  destruct (send_message_connected rt mt payload rid rid st1 st1 Socket.fresh
              eq_refl Hreq) as (Hrun & _).
  exists st1. rewrite Hrun.
  set (message := envelope mt payload rid (client_id (self st1))).
  assert (Hs1 : socket (self st1) = Some Socket.fresh) by reflexivity.
  destruct (json_dumps rt message) as [text|] eqn:Hd.
  2:{ eexists _, TypeError, []. enter_try. step Hd.
      repeat split. simpl. rewrite <- app_assoc. reflexivity. }
  destruct (str_encode_utf8 rt text) as [body|] eqn:He.
  2:{ eexists _, ValueError, []. enter_try. step Hd. step He.
      repeat split. simpl. rewrite <- app_assoc. reflexivity. }
  pose proof (pack_I_ok (byteorder rt) (len body)) as Hok.
  destruct (Struct.pack_I (byteorder rt) (len body)) as [header|e|] eqn:Hp;
    simpl in Hok; [| |contradiction].
  2:{ eexists _, e, []. enter_try. step Hd. step He. step Hp. rewrite Hok.
      repeat split. simpl. rewrite <- app_assoc. reflexivity. }
  eexists _, OSError, [SysSend header (Raise OSError)].
  enter_try. step Hd. step He. step Hp.
  unfold bind at 1. unfold self_socket_send. simpl.
  repeat split; simpl; rewrite <- app_assoc; reflexivity.
Qed.

Lemma refused_connect_witness :
  exists st1 st2 e new,
    connect Demo.offline = (Return false, st1) /\
    socket (self st1) = Some Socket.fresh /\
    send_message Demo.rt (str "PING") (str "ping") (str "req_7") st1 = (Return None, st2) /\
    stdout (env st2) =
      stdout (env Demo.offline) ++ [MsgConnectFailed OSError; MsgSendFailed e] /\
    syscalls (env st2) =
      syscalls (env Demo.offline)
        ++ SysConnect (socket_path (self Demo.offline)) false :: new /\
    forallb (fun ev => negb (is_recv ev)) new = true.
Proof.
  apply (request_after_refused_connect Demo.rt (str "PING") (str "ping") (str "req_7")
           Demo.offline).
  - reflexivity.
  - discriminate.
Defined.

(** X10.  [__init__] does not connect, takes the path given or else the
    default path of the user, and names the client by the clock in whole
    seconds: two clients get the same client id exactly when they are made
    within the same second. *)
Theorem client_ids_by_the_second
        (p1 p2 : option pystr) (w1 w2 : World) (s1 s2 : Z) :
  py_int (clock w1 (ticks w1)) = Return s1 ->
  py_int (clock w2 (ticks w2)) = Return s2 ->
  exists c1 c2,
    init p1 w1 = (Return c1, tick w1) /\
    init p2 w2 = (Return c2, tick w2) /\
    socket c1 = None /\
    socket_path c1 = match p1 with
                     | Some p => p
                     | None => default_socket_path w1
                     end /\
    (client_id c1 = client_id c2 <-> s1 = s2).
Proof.
  intros E1 E2. unfold init. rewrite E1, E2. eexists _, _.
  split; [reflexivity|]. split; [reflexivity|]. simpl.
  split; [reflexivity|]. split; [destruct p1; reflexivity|].
  split.
  - intros H. injection H as H. apply str_of_int_inj, H.
  - intros ->. reflexivity.
Qed.

Lemma client_ids_witness :
  exists c1 c2,
    init None (Demo.world_at 0) = (Return c1, tick (Demo.world_at 0)) /\
    init (Some (str "/run/pv.sock")) (Demo.world_at 1)
    = (Return c2, tick (Demo.world_at 1)) /\
    socket c1 = None /\
    socket_path c1 = default_socket_path (Demo.world_at 0) /\
    (client_id c1 = client_id c2 <-> 1700000000 = 1700000000).
Proof.
  apply (client_ids_by_the_second None (Some (str "/run/pv.sock"))
           (Demo.world_at 0) (Demo.world_at 1) 1700000000 1700000000).
  - vm_compute. reflexivity.
  - vm_compute. reflexivity.
Defined.

Lemma same_ticks_preorder : preorder same_ticks.
Proof. split; unfold same_ticks; [reflexivity|congruence]. Qed.

Lemma same_ticks_print (l : Line) : respects same_ticks (print l).
Proof. intros st. reflexivity. Qed.

Lemma same_ticks_send (data : bytes) : respects same_ticks (self_socket_send data).
Proof.
  intros st. unfold self_socket_send, same_ticks.
  destruct (socket (self st)); [|reflexivity].
  destruct (Socket.send s data). reflexivity.
Qed.

Lemma same_ticks_recv (n : Z) : respects same_ticks (self_socket_recv n).
Proof.
  intros st. unfold self_socket_recv, same_ticks.
  destruct (socket (self st)); [|reflexivity].
  destruct (Socket.recv s n). reflexivity.
Qed.

Lemma same_ticks_receive_message (rt : Runtime) :
  respects same_ticks (receive_message rt).
Proof.
  pose proof same_ticks_preorder as HR. unfold receive_message.
  repeat first [ apply same_ticks_print | apply same_ticks_recv
               | apply respects_recv_loop; [assumption|apply same_ticks_recv]
               | respects_step | case_split ].
Qed.

Lemma same_ticks_send_try (rt : Runtime) (mt payload : pystr) (message : pyval) :
  respects same_ticks (send_try rt mt payload message).
Proof.
  pose proof same_ticks_preorder as HR. unfold send_try.
  repeat first [ apply same_ticks_print | apply same_ticks_send
               | apply same_ticks_receive_message | respects_step ].
Qed.

(** X11.  With a request id given by the caller the clock is not read, and
    the envelope that is serialised and sent carries that id. *)
Theorem explicit_request_id_is_used
        (rt : Runtime) (mt payload rid : pystr) (st : St) :
  rid <> [] ->
  ticks (env (snd (send_message rt mt payload rid st))) = ticks (env st) /\
  exists new,
    syscalls (env (snd (send_message rt mt payload rid st))) = syscalls (env st) ++ new /\
    (sends_of new = [] \/
     exists text body header,
       json_dumps rt (envelope mt payload rid (client_id (self st))) = Some text /\
       str_encode_utf8 rt text = Some body /\
       (sends_of new = [header] \/ sends_of new = [header; body])).
Proof.
  intros Hrid. rewrite send_message_unfold.
  destruct (socket (self st)) as [s|] eqn:Hs.
  2:{ split; [reflexivity|]. exists []. simpl. rewrite app_nil_r. auto. }
  assert (Hreq : request_id_or_default rid st = (Return rid, st))
    by (destruct rid; [congruence|reflexivity]).
  rewrite Hreq. split.
  - apply same_ticks_send_try.
  - destruct (send_try_trace rt mt payload
                (envelope mt payload rid (client_id (self st))) st s Hs)
      as (new & Hnew & Hsent).
    exists new. split; [exact Hnew|].
    destruct Hsent as [Hnone|(text & body & header & Hd & He & _ & Hsent)]; [auto|].
    right. exists text, body, header. auto.
Qed.

Lemma explicit_request_id_witness :
  ticks (env (snd (send_message Demo.rt (str "PING") (str "ping") (str "req_7")
                     (Demo.session [] []))))
  = ticks (env (Demo.session [] [])) /\
  exists new,
    syscalls (env (snd (send_message Demo.rt (str "PING") (str "ping") (str "req_7")
                          (Demo.session [] []))))
    = syscalls (env (Demo.session [] [])) ++ new /\
    (sends_of new = [] \/
     exists text body header,
       json_dumps Demo.rt
         (envelope (str "PING") (str "ping") (str "req_7")
            (client_id (self (Demo.session [] [])))) = Some text /\
       str_encode_utf8 Demo.rt text = Some body /\
       (sends_of new = [header] \/ sends_of new = [header; body])).
Proof.
  apply (explicit_request_id_is_used Demo.rt (str "PING") (str "ping") (str "req_7")
           (Demo.session [] [])).
  discriminate.
Defined.

(** ** Reading back what was written *)





(** * The script *)

(** ** A request on a sane socket *)

Lemma safe_of_returns {A : Type} (m : M A) : returns m -> safe m.
Proof.
  intros Hm st H. destruct (Hm st H) as [H1 [a Ha]].
  split; [exact H1|]. rewrite Ha. exact I.
Qed.

Lemma returns_send_try (rt : Runtime) (mt payload : pystr) (message : pyval) :
  returns (send_try rt mt payload message).
Proof.
  unfold send_try. apply returns_try_except.
  - repeat first [apply safe_of_returns, returns_receive_message | safe_step].
  - intros e. apply returns_bind; [apply returns_print|intros; apply returns_ret].
Qed.

Lemma send_message_returns (rt : Runtime) (mt payload rid : pystr) (st : St) :
  sane st ->
  rid <> [] \/ (exists ms, py_int (PrimFloat.mul (now st) 1000) = Return ms) ->
  exists r st', send_message rt mt payload rid st = (Return r, st') /\ sane st'.
Proof.
  intros Hsane Hclock. rewrite send_message_unfold.
  destruct (socket (self st)) as [s|] eqn:Hs.
  - destruct (request_id_or_default_returns rid st Hclock) as [rid' Hrid].
    destruct (request_id_or_default_frame rid st) as (Hself & _).
    destruct (request_id_or_default rid st) as [o st0]. simpl in *. subst o.
    assert (Hsane0 : sane st0).
    { unfold sane in *. rewrite Hself. exact Hsane. }
    destruct (returns_send_try rt mt payload
                (envelope mt payload rid' (client_id (self st0))) st0 Hsane0)
      as [H1 [a Ha]].
    destruct (send_try rt mt payload _ st0) as [o st']. simpl in *. subst o.
    eauto.
  - eexists _, _. split; [reflexivity|]. exact Hsane.
Qed.

Lemma during_not_closing (st st' : St) :
  during_requests st st' -> not_closing (env st) (env st').
Proof. intros (_ & _ & _ & _ & _ & _ & _ & H). exact H. Qed.

Local Open Scope run_scope.

(** ** Steps of the script *)

Lemma hbind_returns {A B : Type} (m : Script A) (k : A -> Script B) (r r' : Run) (a : A) :
  m r = (Return a, r') -> hbind m k r = k a r'.
Proof. intros E. unfold hbind. rewrite E. reflexivity. Qed.

Lemma not_closing_preorder : world_preorder not_closing.
Proof.
  split.
  - intros w. exists []. rewrite app_nil_r. auto.
  - intros a b c (e1 & E1 & F1) (e2 & E2 & F2).
    exists (e1 ++ e2). rewrite E2, E1, app_assoc, forallb_app, F1, F2. auto.
Qed.

Lemma extends_preorder : world_preorder extends.
Proof.
  split.
  - intros w. exists []. rewrite app_nil_r. auto.
  - intros a b c (e1 & E1) (e2 & E2).
    exists (e1 ++ e2). rewrite E2, E1, app_assoc. auto.
Qed.

Lemma not_closing_extends (w w' : World) : not_closing w w' -> extends w w'.
Proof. intros (evs & E & _). exists evs. exact E. Qed.

(** *** Steps that leave the environment alone *)

Lemma idle_of_settled {A : Type} (m : Script A) : settled m -> idle m.
Proof.
  intros Hm r. destruct (Hm r) as [H1 [a Ha]]. split; [exact H1|].
  rewrite Ha. discriminate.
Qed.

Lemma idle_hret {A : Type} (a : A) : idle (hret a).
Proof. intros r. simpl. split; [reflexivity|discriminate]. Qed.

Lemma idle_hlift {A : Type} (o : Outcome A) : o <> OutOfFuel -> idle (hlift o).
Proof. intros Ho r. simpl. auto. Qed.

Lemma idle_say (l : Say) : idle (say l).
Proof. intros r. simpl. split; [reflexivity|discriminate]. Qed.

Lemma idle_hbind {A B : Type} (m : Script A) (k : A -> Script B) :
  idle m -> (forall a, idle (k a)) -> idle (hbind m k).
Proof.
  intros Hm Hk r. unfold hbind. destruct (Hm r) as [H1 H2].
  destruct (m r) as [[a|e|] r1]; simpl in *.
  - destruct (Hk a r1) as [H3 H4]. split; [congruence|exact H4].
  - split; [exact H1|discriminate].
  - contradiction.
Qed.

Lemma idle_try_bare {A : Type} (m h : Script A) : idle m -> idle h -> idle (try_bare m h).
Proof.
  intros Hm Hh r. unfold try_bare. destruct (Hm r) as [H1 H2].
  destruct (m r) as [[a|e|] r1]; simpl in *.
  - split; [exact H1|discriminate].
  - destruct (Hh r1) as [H3 H4]. split; [congruence|exact H4].
  - contradiction.
Qed.

Lemma idle_for_each {A : Type} (items : list A) (body : A -> Script unit) :
  (forall x, idle (body x)) -> idle (for_each items body).
Proof.
  intros Hb. induction items as [|x items IH]; simpl.
  - apply idle_hret.
  - apply idle_hbind; [apply Hb|intros _; exact IH].
Qed.

Lemma subscript_ends (response : option pyval) (key : pystr) :
  subscript response key <> OutOfFuel.
Proof.
  destruct response as [[]|]; simpl; try discriminate.
  destruct (dict_get d key); discriminate.
Qed.

Lemma getitem_ends (v : pyval) (key : pystr) : getitem v key <> OutOfFuel.
Proof. exact (subscript_ends (Some v) key). Qed.

Lemma py_json_loads_ends (rt : Runtime) (v : pyval) : py_json_loads rt v <> OutOfFuel.
Proof.
  destruct v; simpl; try discriminate. destruct (json_loads rt s); discriminate.
Qed.

Lemma py_get_ends (v : pyval) (key : pystr) (default : pyval) :
  py_get v key default <> OutOfFuel.
Proof. destruct v; discriminate. Qed.

Lemma py_len_ends (v : pyval) : py_len v <> OutOfFuel.
Proof. destruct v; discriminate. Qed.

Lemma py_iter_ends (v : pyval) : py_iter v <> OutOfFuel.
Proof. destruct v; discriminate. Qed.

Ltac idle_step :=
  first
    [ apply idle_hret
    | apply idle_say
    | apply idle_hlift;
      first [ apply subscript_ends | apply getitem_ends | apply py_json_loads_ends
            | apply py_get_ends | apply py_len_ends | apply py_iter_ends ]
    | apply idle_for_each; intros ?
    | apply idle_try_bare
    | apply idle_hbind; [|intros ?] ].

Lemma idle_check (response : option pyval) (expected : pystr) :
  idle (check response expected).
Proof.
  unfold check. destruct response as [v|]; [|apply idle_hret].
  destruct (truthy v); repeat idle_step.
Qed.

Lemma idle_vault_details (rt : Runtime) (response : option pyval) :
  idle (vault_details rt response).
Proof. unfold vault_details. repeat idle_step. Qed.

Lemma idle_profile_details (rt : Runtime) (response : option pyval) :
  idle (profile_details rt response).
Proof. unfold profile_details. repeat idle_step. Qed.

(** *** Steps that also return *)

Lemma settled_hret {A : Type} (a : A) : settled (hret a).
Proof. intros r. simpl. eauto. Qed.

Lemma settled_say (l : Say) : settled (say l).
Proof. intros r. simpl. eauto. Qed.

Lemma settled_hbind {A B : Type} (m : Script A) (k : A -> Script B) :
  settled m -> (forall a, settled (k a)) -> settled (hbind m k).
Proof.
  intros Hm Hk r. unfold hbind. destruct (Hm r) as [H1 [a Ha]].
  destruct (m r) as [o r1]. simpl in *. subst o.
  destruct (Hk a r1) as [H3 H4]. split; [congruence|exact H4].
Qed.

(** A bare [except] whose handler returns lets nothing out. *)
Lemma settled_try_bare {A : Type} (m h : Script A) :
  idle m -> settled h -> settled (try_bare m h).
Proof.
  intros Hm Hh r. unfold try_bare. destruct (Hm r) as [H1 H2].
  destruct (m r) as [[a|e|] r1]; simpl in *.
  - eauto.
  - destruct (Hh r1) as [H3 H4]. split; [congruence|exact H4].
  - contradiction.
Qed.

Lemma settled_check (response : option pyval) (expected : pystr) :
  (forall m, response = Some m -> well_formed m) ->
  settled (check response expected).
Proof.
  intros Hwf. unfold check. destruct response as [v|]; [|apply settled_hret].
  destruct (Hwf v eq_refl) as (d & ty & payload & -> & Hty & _).
  destruct (truthy (PDict d)); [|apply settled_hret].
  intros r. unfold hbind, hlift. simpl. rewrite Hty. simpl. eauto.
Qed.

Lemma settled_vault_details (rt : Runtime) (response : option pyval) :
  settled (vault_details rt response).
Proof.
  unfold vault_details. apply settled_try_bare; [|apply settled_say].
  repeat idle_step.
Qed.

Lemma settled_profile_details (rt : Runtime) (response : option pyval) :
  settled (profile_details rt response).
Proof.
  unfold profile_details. apply settled_try_bare; [|apply settled_say].
  repeat idle_step.
Qed.

(** *** What a run keeps *)

Lemma keeps_idle (R : World -> World -> Prop) {A : Type} (m : Script A) :
  world_preorder R -> idle m -> keeps R m.
Proof. intros [Hr _] Hm r. destruct (Hm r) as [-> _]. apply Hr. Qed.

Lemma keeps_hbind (R : World -> World -> Prop) {A B : Type} (m : Script A) (k : A -> Script B) :
  world_preorder R -> keeps R m -> (forall a, keeps R (k a)) -> keeps R (hbind m k).
Proof.
  intros [_ Ht] Hm Hk r. unfold hbind. generalize (Hm r).
  destruct (m r) as [[a|e|] r1]; simpl; auto.
  intros H1. eapply Ht; [exact H1|apply Hk].
Qed.

Lemma keeps_call (R : World -> World -> Prop) {A : Type} (client : Client) (m : M A) :
  (forall st, R (env st) (env (snd (m st)))) -> keeps R (call client m).
Proof.
  intros Hm r. unfold call.
  generalize (Hm {| self := client; env := out r |}).
  destruct (m _) as [o st]. simpl. auto.
Qed.

Lemma keeps_construct (R : World -> World -> Prop) (socket_path : option pystr) :
  (forall w, R w (tick w)) -> keeps R (construct socket_path).
Proof.
  intros Hr r. unfold construct, init.
  destruct (py_int _); simpl; apply Hr.
Qed.

Lemma not_closing_tick (w : World) : not_closing w (tick w).
Proof. exists []. simpl. rewrite app_nil_r. auto. Qed.

Lemma keeps_request (rt : Runtime) (client : Client) (mt payload rid : pystr) :
  keeps not_closing (call client (send_message rt mt payload rid)).
Proof.
  apply keeps_call. intros st. apply during_not_closing, during_send_message.
Qed.

Lemma keeps_connect (client : Client) : keeps not_closing (call client connect).
Proof.
  apply keeps_call. intros st. apply during_not_closing, during_connect_method.
Qed.

Lemma extends_disconnect (st : St) : extends (env st) (env (snd (disconnect st))).
Proof.
  destruct st as [[p [s|] cid] w]; simpl.
  - exists [SysClose]. reflexivity.
  - exists []. rewrite app_nil_r. reflexivity.
Qed.

(** *** From the connection to the cleanup *)

Lemma hoare_bind {A B : Type} (P : World -> Prop) (m : Script A) (Q : A -> World -> Prop)
      (k : A -> Script B) (R : B -> World -> Prop) :
  hoare P m Q -> (forall a, hoare (Q a) (k a) R) -> hoare P (hbind m k) R.
Proof.
  intros Hm Hk r HP. destruct (Hm r HP) as (a & r1 & E & HQ).
  rewrite (hbind_returns m k r r1 a E). apply Hk, HQ.
Qed.

Lemma hoare_settled {A : Type} (P : World -> Prop) (m : Script A) :
  settled m -> hoare P m (fun _ => P).
Proof.
  intros Hm r HP. destruct (Hm r) as [H1 [a Ha]].
  destruct (m r) as [o r1]. simpl in *. subst o.
  exists a, r1. split; [reflexivity|]. rewrite H1. exact HP.
Qed.

Lemma hoare_assume {A : Type} (P : World -> Prop) (F : Prop) (m : Script A)
      (Q : A -> World -> Prop) :
  (F -> hoare P m Q) -> hoare (fun w => P w /\ F) m Q.
Proof. intros Hm r [HP HF]. apply Hm; assumption. Qed.

Lemma hoare_request (rt : Runtime) (w0 : World) (client : Client) (mt payload : pystr) :
  hoare (between_requests w0 client)
        (call client (send_message rt mt payload []))
        (fun a w =>
           between_requests w0 (snd a) w /\
           (forall m, fst a = Some m -> well_formed m)).
Proof.
  intros r (Hsane & Hclock & Hsock & Hnc).
  destruct (send_message_returns rt mt payload [] {| self := client; env := out r |} Hsane)
    as (resp & st' & Hrun & Hsane').
  { right. apply Hclock. }
  generalize (during_send_message rt mt payload [] {| self := client; env := out r |}).
  unfold call. rewrite Hrun. simpl.
  intros Hd. eexists _, _. split; [reflexivity|]. simpl.
  destruct Hd as (_ & _ & Hk & _ & _ & Hs & _ & Hnew). simpl in *.
  split.
  - split; [destruct st'; exact Hsane'|].
    split; [unfold finite_clock; rewrite Hk; exact Hclock|].
    split; [auto|].
    destruct not_closing_preorder as [_ Ht]. eapply Ht; [exact Hnc|exact Hnew].
  - intros m ->. eapply send_message_some; eauto.
Qed.

Lemma cleanup_returns (client : Client) (r : Run) :
  exists a,
    fst ((say SayCleanup ;; call client disconnect ;; say SayCompleted ;; hret true) r)
    = Return a.
Proof.
  destruct client as [p [s|] cid]; simpl; eauto.
Qed.

Lemma hoare_cleanup (w0 : World) (client : Client) :
  hoare (between_requests w0 client)
        (say SayCleanup ;; call client disconnect ;; say SayCompleted ;; hret true)
        (fun b w =>
           b = true /\
           exists evs,
             syscalls w = syscalls w0 ++ evs ++ [SysClose] /\
             forallb (fun e => negb (is_close e)) evs = true).
Proof.
  intros r (_ & _ & Hsock & evs & Hsys & Hevs).
  destruct client as [p [s|] cid]; [|contradiction Hsock; reflexivity].
  eexists _, _. split; [reflexivity|]. simpl. split; [reflexivity|].
  exists evs. rewrite Hsys, app_assoc. auto.
Qed.

Lemma hoare_run_scenarios (rt : Runtime) (w0 : World) (client : Client) :
  hoare (between_requests w0 client)
        (run_scenarios rt client)
        (fun b w =>
           b = true /\
           exists evs,
             syscalls w = syscalls w0 ++ evs ++ [SysClose] /\
             forallb (fun e => negb (is_close e)) evs = true).
Proof.
  unfold run_scenarios.
  eapply hoare_bind; [apply hoare_settled, settled_say|intros ?].
  eapply hoare_bind; [apply hoare_request|intros [response1 client1]].
  cbn [fst snd]. apply hoare_assume. intros Hwf1.
  eapply hoare_bind; [apply hoare_settled, settled_check, Hwf1|intros passed1].
  eapply hoare_bind;
    [apply hoare_settled; destruct passed1; apply settled_say|intros ?].
  eapply hoare_bind; [apply hoare_settled, settled_say|intros ?].
  eapply hoare_bind; [apply hoare_request|intros [response2 client2]].
  cbn [fst snd]. apply hoare_assume. intros Hwf2.
  eapply hoare_bind; [apply hoare_settled, settled_check, Hwf2|intros passed2].
  eapply hoare_bind.
  { apply hoare_settled. destruct passed2; [|apply settled_say].
    apply settled_hbind; [apply settled_say|intros _; apply settled_vault_details]. }
  intros ?.
  eapply hoare_bind; [apply hoare_settled, settled_say|intros ?].
  eapply hoare_bind; [apply hoare_request|intros [response3 client3]].
  cbn [fst snd]. apply hoare_assume. intros Hwf3.
  eapply hoare_bind; [apply hoare_settled, settled_check, Hwf3|intros passed3].
  eapply hoare_bind.
  { apply hoare_settled. destruct passed3; [|apply settled_say].
    apply settled_hbind; [apply settled_say|intros _; apply settled_profile_details]. }
  intros ?.
  eapply hoare_bind; [apply hoare_settled, settled_say|intros ?].
  eapply hoare_bind; [apply hoare_request|intros [response4 client4]].
  cbn [fst snd]. apply hoare_assume. intros Hwf4.
  eapply hoare_bind; [apply hoare_settled, settled_check, Hwf4|intros passed4].
  eapply hoare_bind;
    [apply hoare_settled; destruct passed4; apply settled_say|intros ?].
  apply hoare_cleanup.
Qed.

(** ** The runs of [test_ipc_communication] and [main] *)

Lemma keeps_weaken (R R' : World -> World -> Prop) {A : Type} (m : Script A) :
  (forall w w', R w w' -> R' w w') -> keeps R m -> keeps R' m.
Proof. intros HR Hm r. apply HR, Hm. Qed.

Ltac idle_all :=
  solve
    [ repeat first
        [ apply idle_check
        | apply idle_vault_details
        | apply idle_profile_details
        | match goal with |- idle (if ?b then _ else _) => destruct b end
        | idle_step ] ].

(** One step of a run, for a relation [R] that socket calls other than a
    close keep. *)
Ltac run_step Hpre :=
  first
    [ apply keeps_idle; [exact Hpre|idle_all]
    | apply keeps_hbind; [exact Hpre| |intros ?]
    | match goal with |- keeps _ (let (_, _) := ?a in _) => destruct a end ].

Lemma keeps_run_scenarios (rt : Runtime) (client : Client) :
  keeps extends (run_scenarios rt client).
Proof.
  assert (Hreq : forall c mt payload,
             keeps extends (call c (send_message rt mt payload []))).
  { intros c mt payload.
    exact (keeps_weaken _ _ _ not_closing_extends (keeps_request rt c mt payload [])). }
  assert (Hdis : forall c, keeps extends (call c disconnect)).
  { intros c. apply keeps_call, extends_disconnect. }
  unfold run_scenarios.
  repeat first [apply Hreq | apply Hdis | run_step extends_preorder].
Qed.

Lemma closing_of_keeps {A : Type} (m : Script A) :
  keeps not_closing m -> closes_only_on_return m.
Proof. intros Hm r. right. apply Hm. Qed.

Lemma closing_hbind {A B : Type} (m : Script A) (k : A -> Script B) :
  keeps not_closing m ->
  (forall a, closes_only_on_return (k a)) ->
  closes_only_on_return (hbind m k).
Proof.
  intros Hm Hk r. unfold hbind. generalize (Hm r).
  destruct (m r) as [[a|e|] r1]; simpl; auto.
  intros H1. destruct (Hk a r1) as [Hret|Hnc]; [left; exact Hret|right].
  destruct not_closing_preorder as [_ Ht]. eapply Ht; eauto.
Qed.

Ltac closing_step :=
  first
    [ intros r; left; apply cleanup_returns
    | apply closing_hbind;
      [ first [ apply keeps_request
              | apply keeps_connect
              | apply keeps_construct, not_closing_tick
              | apply keeps_idle; [exact not_closing_preorder|idle_all] ]
      | intros ? ]
    | match goal with
      | |- closes_only_on_return (let (_, _) := ?a in _) => destruct a
      end ].

Lemma closing_run_scenarios (rt : Runtime) (client : Client) :
  closes_only_on_return (run_scenarios rt client).
Proof. unfold run_scenarios. repeat closing_step. Qed.

Lemma closing_test_ipc_communication (rt : Runtime) :
  closes_only_on_return (test_ipc_communication rt).
Proof.
  unfold test_ipc_communication. repeat closing_step.
  destruct b; simpl.
  - apply closing_run_scenarios.
  - apply closing_of_keeps, keeps_idle; [exact not_closing_preorder|idle_all].
Qed.

(** What [test_ipc_communication] does up to the connection. *)
Lemma test_ipc_communication_connects (rt : Runtime) (r : Run) (now : Z) :
  py_int (clock (out r) (ticks (out r))) = Return now ->
  let path := default_socket_path (out r) in
  let client :=
    {| socket_path := path; socket := None;
       client_id := str "test_client_" ++ str_of_int now |} in
  let n := List.length (stdout (out r)) in
  let said := report r ++ [(n, SayBanner); (n, SayRule); (n, SayTest1)] in
  test_ipc_communication rt r =
  match listening (out r) path with
  | Some s =>
      run_scenarios rt (set_socket client (Some s))
        {| out := log_line (log_sys (tick (out r)) (SysConnect path true))
                    (MsgConnected path);
           report := said |}
  | None =>
      (Return false,
       {| out := log_line (log_sys (tick (out r)) (SysConnect path false))
                   (MsgConnectFailed OSError);
          report := said ++ [(S n, SayConnectionFailed)] |})
  end.
Proof.
  intros Hnow. cbv zeta.
  unfold test_ipc_communication.
  unfold hbind at 1. unfold say at 1. cbn [out report].
  unfold hbind at 1. unfold say at 1. cbn [out report].
  unfold hbind at 1. unfold construct, init. cbn [out report]. rewrite Hnow.
  cbn [out report].
  unfold hbind at 1. unfold say at 1. cbn [out report].
  unfold hbind at 1. unfold call at 1. rewrite connect_outcome.
  cbn [self env out report socket_path listening tick uid stdout].
  fold (default_socket_path (out r)).
  rewrite <- !app_assoc. cbn [app].
  destruct (listening (out r) (default_socket_path (out r))) as [s|].
  - cbn [negb self env fst snd]. reflexivity.
  - cbn [negb self env fst snd].
    unfold hbind, say, hret. cbn [out report log_line log_sys stdout].
    rewrite <- app_assoc. cbn [app].
    rewrite length_app. cbn [List.length]. rewrite Nat.add_1_r. reflexivity.
Qed.

(** X13.  Against a service that listens at the default path, with
    socket failures of class [Exception] and a clock that reads numbers,
    [test_ipc_communication] goes through all four exchanges whatever the
    answers: it returns [True], and its socket calls are the connect, then
    calls that close nothing, then one close. *)
Theorem connected_run_reaches_cleanup (rt : Runtime) (r : Run) (s : Sock) :
  finite_clock (out r) ->
  listening (out r) (default_socket_path (out r)) = Some s ->
  sock_sane s = true ->
  exists r' evs,
    test_ipc_communication rt r = (Return true, r') /\
    syscalls (out r') =
      syscalls (out r)
        ++ [SysConnect (default_socket_path (out r)) true] ++ evs ++ [SysClose] /\
    forallb (fun e => negb (is_close e)) evs = true.
Proof.
  intros Hclock Hl Hs.
  destruct (Hclock (ticks (out r))) as [[now Hnow] _].
  rewrite (test_ipc_communication_connects rt r now Hnow). cbv zeta. rewrite Hl.
  match goal with
  | |- exists r' evs, run_scenarios rt ?c ?r1 = _ /\ _ =>
      destruct (hoare_run_scenarios rt (out r1) c r1)
        as (b & r' & Hrun & -> & evs & Hsys & Hevs)
  end.
  { repeat split.
    - exact Hs.
    - exact (proj1 (Hclock n)).
    - exact (proj2 (Hclock n)).
    - discriminate.
    - destruct not_closing_preorder as [Hr _]. apply Hr. }
  exists r', evs. split; [exact Hrun|]. split; [|exact Hevs].
  rewrite Hsys. cbn [out log_line log_sys tick syscalls].
  rewrite <- app_assoc. reflexivity.
Qed.

Lemma connected_run_witness :
  exists r' evs,
    test_ipc_communication Trial.rt
      (Trial.start
         (Trial.service Trial.default_path
            [Arrive (Demo.frame_of (Demo.bytes_of Demo.pong))]))
    = (Return true, r') /\
    syscalls (out r') =
      syscalls (out (Trial.start
                       (Trial.service Trial.default_path
                          [Arrive (Demo.frame_of (Demo.bytes_of Demo.pong))])))
        ++ [SysConnect
              (default_socket_path
                 (out (Trial.start
                         (Trial.service Trial.default_path
                            [Arrive (Demo.frame_of (Demo.bytes_of Demo.pong))]))))
              true]
        ++ evs ++ [SysClose] /\
    forallb (fun e => negb (is_close e)) evs = true.
Proof.
  apply (connected_run_reaches_cleanup Trial.rt
           (Trial.start
              (Trial.service Trial.default_path
                 [Arrive (Demo.frame_of (Demo.bytes_of Demo.pong))]))
           {| connected := true;
              inbox := [Arrive (Demo.frame_of (Demo.bytes_of Demo.pong))];
              sendq := [] |}).
  - intros n. destruct n as [|[|n]]; split; eexists; vm_compute; reflexivity.
  - vm_compute. reflexivity.
  - reflexivity.
Defined.

(** X14.  When nothing listens at the default path,
    [test_ipc_communication] returns [False] after the connection test:
    the one socket call is the refused connect, the failure is printed, no
    request is sent and the socket object is not closed. *)
Theorem refused_connection_ends_run (rt : Runtime) (r : Run) (now : Z) :
  py_int (clock (out r) (ticks (out r))) = Return now ->
  listening (out r) (default_socket_path (out r)) = None ->
  exists r',
    test_ipc_communication rt r = (Return false, r') /\
    syscalls (out r') =
      syscalls (out r) ++ [SysConnect (default_socket_path (out r)) false] /\
    stdout (out r') = stdout (out r) ++ [MsgConnectFailed OSError] /\
    exists pre n, report r' = pre ++ [(n, SayConnectionFailed)].
Proof.
  intros Hnow Hl.
  rewrite (test_ipc_communication_connects rt r now Hnow). cbv zeta. rewrite Hl.
  eexists. split; [reflexivity|]. cbn [out report log_line log_sys tick syscalls stdout].
  repeat split. eauto.
Qed.

Lemma refused_run_witness :
  exists r',
    test_ipc_communication Trial.rt (Trial.start (Trial.service Trial.other_path []))
    = (Return false, r') /\
    syscalls (out r') =
      syscalls (out (Trial.start (Trial.service Trial.other_path [])))
        ++ [SysConnect
              (default_socket_path (out (Trial.start (Trial.service Trial.other_path []))))
              false] /\
    stdout (out r') =
      stdout (out (Trial.start (Trial.service Trial.other_path [])))
        ++ [MsgConnectFailed OSError] /\
    exists pre n, report r' = pre ++ [(n, SayConnectionFailed)].
Proof.
  apply (refused_connection_ends_run Trial.rt
           (Trial.start (Trial.service Trial.other_path [])) 1700000000).
  - vm_compute. reflexivity.
  - vm_compute. reflexivity.
Defined.

(** X15.  The socket path given on the command line is looked for on the
    file system and not used: the first socket call of [main] is a connect
    to the default path. *)
Theorem main_ignores_socket_path
        (rt : Runtime) (host : Host) (r : Run) (arg0 arg : pystr) (rest : list pystr) :
  argv host = arg0 :: arg :: rest ->
  pystr_eqb arg (str "--help") = false ->
  path_exists host arg = true ->
  finite_clock (out r) ->
  exists ok more,
    syscalls (out (snd (main rt host r))) =
      syscalls (out r) ++ SysConnect (default_socket_path (out r)) ok :: more.
Proof.
  intros Hargv Hhelp Hexists Hclock.
  destruct (Hclock (ticks (out r))) as [[now Hnow] _].
  destruct (Hclock (S (ticks (out r)))) as [[now' Hnow'] _].
  unfold main. rewrite Hargv, Hhelp.
  unfold hbind at 1. unfold construct, init. rewrite Hnow.
  unfold main_run. cbn [socket_path]. rewrite Hexists. cbn [negb].
  set (r1 := {| out := tick (out r); report := report r |}).
  assert (Hgoal : exists ok more,
             syscalls (out (snd (test_ipc_communication rt r1))) =
             syscalls (out r) ++ SysConnect (default_socket_path (out r)) ok :: more).
  { rewrite (test_ipc_communication_connects rt r1 now' Hnow'). cbv zeta.
    change (default_socket_path (out r1)) with (default_socket_path (out r)).
    destruct (listening (out r1) (default_socket_path (out r))) as [s|].
    - match goal with
      | |- exists ok more, syscalls (out (snd (run_scenarios rt ?c ?r2))) = _ =>
          destruct (keeps_run_scenarios rt c r2) as (evs & Hevs)
      end.
      exists true, evs. rewrite Hevs. cbn [out log_line log_sys tick syscalls r1].
      rewrite <- app_assoc. reflexivity.
    - exists false, []. reflexivity. }
  destruct Hgoal as (ok & more & Hsys). exists ok, more. rewrite <- Hsys.
  destruct (test_ipc_communication rt r1) as [[b|e|] r2]; cbn [snd]; try reflexivity.
  destruct e; reflexivity.
Qed.

Lemma main_ignores_socket_path_witness :
  exists ok more,
    syscalls (out (snd (main Trial.rt
                          (Trial.host [Trial.other_path] [Trial.other_path])
                          (Trial.start (Trial.service Trial.other_path [])))))
    = syscalls (out (Trial.start (Trial.service Trial.other_path [])))
        ++ SysConnect
             (default_socket_path (out (Trial.start (Trial.service Trial.other_path []))))
             ok :: more.
Proof.
  apply (main_ignores_socket_path Trial.rt
           (Trial.host [Trial.other_path] [Trial.other_path])
           (Trial.start (Trial.service Trial.other_path []))
           (str "test-ipc-client.py") Trial.other_path []).
  - reflexivity.
  - vm_compute. reflexivity.
  - vm_compute. reflexivity.
  - intros n. destruct n as [|[|n]]; split; eexists; vm_compute; reflexivity.
Defined.

(** X16.  When the path [main] looks for does not exist, [main] makes no
    socket call and no client prints anything. *)
Theorem no_socket_file_no_socket_call (rt : Runtime) (host : Host) (r : Run) :
  path_exists host (chosen_path host (out r)) = false ->
  syscalls (out (snd (main rt host r))) = syscalls (out r) /\
  stdout (out (snd (main rt host r))) = stdout (out r).
Proof.
  unfold chosen_path, main, default_socket_path.
  assert (Hrun : forall p,
             path_exists host
               match p with
               | Some arg => arg
               | None => str "/tmp/phantom-vault-" ++ str_of_int (uid (out r)) ++ str ".sock"
               end = false ->
             syscalls (out (snd (hbind (construct p) (fun client => main_run rt host client) r)))
             = syscalls (out r) /\
             stdout (out (snd (hbind (construct p) (fun client => main_run rt host client) r)))
             = stdout (out r)).
  { intros p Hp. unfold hbind, construct, init.
    destruct (py_int _); cbn [snd out tick syscalls stdout]; auto.
    unfold main_run. cbn [socket_path]. rewrite Hp. cbn [negb].
    split; reflexivity. }
  destruct (argv host) as [|arg0 [|arg rest]].
  - exact (Hrun None).
  - exact (Hrun None).
  - intros Hp. destruct (pystr_eqb arg (str "--help")).
    + split; reflexivity.
    + exact (Hrun (Some arg) Hp).
Qed.

Lemma no_socket_file_witness :
  syscalls (out (snd (main Trial.rt (Trial.host [] [])
                        (Trial.start (Trial.service Trial.default_path [])))))
  = syscalls (out (Trial.start (Trial.service Trial.default_path []))) /\
  stdout (out (snd (main Trial.rt (Trial.host [] [])
                      (Trial.start (Trial.service Trial.default_path [])))))
  = stdout (out (Trial.start (Trial.service Trial.default_path []))).
Proof.
  apply (no_socket_file_no_socket_call Trial.rt (Trial.host [] [])
           (Trial.start (Trial.service Trial.default_path []))).
  reflexivity.
Defined.

(** X17.  A run of the tests that ends by an exception is reported by
    [main], which returns: as interrupted for a keyboard interrupt, as
    failed otherwise.  No socket has been closed: the cleanup of lines
    172-173 is not reached. *)
Theorem failed_run_is_reported_not_cleaned_up
        (rt : Runtime) (host : Host) (client : Client) (r : Run) (e : Exn) :
  path_exists host (socket_path client) = true ->
  fst (test_ipc_communication rt r) = Raise e ->
  exists r' n,
    main_run rt host client r = (Return tt, r') /\
    not_closing (out r) (out r') /\
    report r' =
      report (snd (test_ipc_communication rt r))
        ++ [(n, if is_Exception e then SayTestFailed e else SayInterrupted)].
Proof.
  intros Hexists Hraise. unfold main_run. rewrite Hexists. cbn [negb].
  destruct (closing_test_ipc_communication rt r) as [[a Ha]|Hnc]; [congruence|].
  destruct (test_ipc_communication rt r) as [o r1]. cbn [fst snd] in *. subst o.
  destruct e; cbn [is_Exception]; eexists _, _; (split; [reflexivity|]); split;
    try exact Hnc; reflexivity.
Qed.

Lemma failed_run_witness :
  exists r' n,
    main_run Trial.rt (Trial.host [] [Trial.default_path])
      (Trial.client Trial.default_path)
      (Trial.start (Trial.service Trial.default_path [RecvRaise KeyboardInterrupt]))
    = (Return tt, r') /\
    not_closing
      (out (Trial.start (Trial.service Trial.default_path [RecvRaise KeyboardInterrupt])))
      (out r') /\
    report r' =
      report (snd (test_ipc_communication Trial.rt
                     (Trial.start
                        (Trial.service Trial.default_path
                           [RecvRaise KeyboardInterrupt]))))
        ++ [(n, if is_Exception KeyboardInterrupt
                then SayTestFailed KeyboardInterrupt else SayInterrupted)].
Proof.
  apply (failed_run_is_reported_not_cleaned_up Trial.rt
           (Trial.host [] [Trial.default_path])
           (Trial.client Trial.default_path)
           (Trial.start (Trial.service Trial.default_path [RecvRaise KeyboardInterrupt]))
           KeyboardInterrupt).
  - vm_compute. reflexivity.
  - vm_compute. reflexivity.
Defined.

(** ** The listing of the profiles *)



